(** * ficc-pricer: the market gateway's data model and market store

    A shallow embedding of the Go market gateway (package [models]:
    currencies and the contract builders; package [market]: the
    mutex-protected market-data [Manager]) together with the data model
    and valuation rules of the pricing core the gateway talks to.

    Conventions of the embedding.
    - [float64] is IEEE 754 binary64, the kernel's primitive floats: the
      comparisons of the guards ([rate <= 0], [flatVol > 1]) are the
      IEEE ones, false on NaN.
    - A Go [map] is a reference: the maps live in a heap and the
      [Manager] and a [MarketSnapshot] hold locations; [nil] is [None].
    - [time.Now()] is an explicit argument of the methods that read it.
    - [fmt.Errorf] keeps its format and operands; the [%s] verb is
      rendered by [Sprintf]. *)

From Stdlib Require Import ZArith String Ascii List Floats.
From stdpp Require Import gmap strings.

Set Warnings "-inexact-float".
Local Open Scope Z_scope.
Local Open Scope string_scope.

(** ** Errors: [fmt.Errorf] *)

Inductive fmtArg : Type :=
| ArgString (s : string)
| ArgFloat64 (x : float).

Record error : Type := Errorf { format : string; operands : list fmtArg }.

(** The text of a format whose verbs are all [%s] with string operands;
    [None] on any other verb or on an operand count that does not match
    (the rendering of [%f] is not needed by any statement below). *)
Fixpoint Sprintf (fmt : string) (a : list fmtArg) : option string :=
  match fmt with
  | EmptyString => match a with [] => Some EmptyString | _ :: _ => None end
  | String c rest =>
      if Ascii.eqb c "%"%char then
        match rest with
        | String v rest' =>
            if Ascii.eqb v "s"%char then
              match a with
              | ArgString s :: a' => String.append s <$> Sprintf rest' a'
              | _ => None
              end
            else None
        | EmptyString => None
        end
      else String c <$> Sprintf rest a
  end.

Definition Error (e : error) : option string := Sprintf (format e) (operands e).

(** ** Package [models] *)

Module models.

(** [type Currency int], with the constants of the [iota] block. *)
Definition Currency : Type := Z.

Definition USD : Currency := 0.
Definition EUR : Currency := 1.
Definition GBP : Currency := 2.
Definition JPY : Currency := 3.
Definition CHF : Currency := 4.
Definition AUD : Currency := 5.
Definition CAD : Currency := 6.

(** The declared constants, in declaration order. *)
Definition currencies : list Currency := [USD; EUR; GBP; JPY; CHF; AUD; CAD].

(** The entries of the [currencyNames] literal, as written. *)
Definition declaredEntries : list (Currency * string) :=
  [(USD, "USD"); (EUR, "EUR"); (GBP, "GBP"); (JPY, "JPY");
   (CHF, "CHF"); (AUD, "AUD"); (CAD, "CAD")].

(** [var currencyNames = map[Currency]string{...}] *)
Definition currencyNames : gmap Z string := list_to_map declaredEntries.

(** [func (c Currency) String() string]: a missing key reads as the zero
    value of [string]. *)
Definition Currency_String (c : Currency) : string :=
  default "" (currencyNames !! c).

(** [fmt.Errorf("unknown currency: %s", s)] *)
Definition unknownCurrency (s : string) : error :=
  Errorf "unknown currency: %s" [ArgString s].

(** The body of [ParseCurrency] over the entries in the order the
    [range] statement happens to visit them: the first entry whose name
    equals [s] is returned. *)
Fixpoint ParseCurrency_range (entries : list (Currency * string)) (s : string)
  : Currency * option error :=
  match entries with
  | [] => (0%Z, Some (unknownCurrency s))
  | (c, name) :: rest =>
      if String.eqb name s then (c, None) else ParseCurrency_range rest s
  end.

(** [func ParseCurrency(s string) (Currency, error)] under one iteration
    order; Go leaves the order of [range] over a map unspecified, and the
    statements below hold for every order. *)
Definition ParseCurrency (s : string) : Currency * option error :=
  ParseCurrency_range (map_to_list currencyNames) s.

(** [type OptionType int] *)
Definition OptionType : Type := Z.
Definition Call : OptionType := 0.
Definition Put : OptionType := 1.

Definition OptionType_String (o : OptionType) : string :=
  if Z.eqb o Call then "CALL" else "PUT".

(** [time.Time], as an instant counted from the zero [Time]. *)
Definition Time : Type := Z.

(** [type Contract interface { isContract(); String() string }]: the
    non-nil values of the interface are the values of the seven struct
    types that implement it. *)
Inductive Contract : Type :=
| Zero
| Spot (Domestic Foreign : Currency)
| Forward (Maturity : Time) (FixedRate : float) (Domestic Foreign : Currency)
| EurOption (Type_ : OptionType) (Strike : float) (Maturity : Time)
            (Domestic Foreign : Currency)
| ZCB (Currency_ : Currency) (Maturity : Time)
| Scale (Notional : float) (Contract_ : Contract)
| Combine (Left Right : Contract).

(** Builder functions. *)
Definition NewSpot (domestic foreign : Currency) : Contract :=
  Spot domestic foreign.
Definition NewForward (maturity : Time) (fixedRate : float)
  (domestic foreign : Currency) : Contract :=
  Forward maturity fixedRate domestic foreign.
Definition NewEurOption (optType : OptionType) (strike : float)
  (maturity : Time) (domestic foreign : Currency) : Contract :=
  EurOption optType strike maturity domestic foreign.
Definition NewZCB (currency : Currency) (maturity : Time) : Contract :=
  ZCB currency maturity.
Definition NewScale (notional : float) (contract : Contract) : Contract :=
  Scale notional contract.
Definition NewCombine (left right : Contract) : Contract :=
  Combine left right.
Definition NewCallOption (strike : float) (maturity : Time)
  (domestic foreign : Currency) : Contract :=
  NewEurOption Call strike maturity domestic foreign.
Definition NewPutOption (strike : float) (maturity : Time)
  (domestic foreign : Currency) : Contract :=
  NewEurOption Put strike maturity domestic foreign.
Definition NewScaledOption (notional : float) (optType : OptionType)
  (strike : float) (maturity : Time) (domestic foreign : Currency) : Contract :=
  let option := NewEurOption optType strike maturity domestic foreign in
  NewScale notional option.

End models.

(** ** Package [market] *)

Module market.

Definition Time : Type := Z.

(** The zero [time.Time]. *)
Definition zeroTime : Time := 0.

Module SpotRate.
Record t : Type := mk { Pair : string; Rate : float; Timestamp : Time }.
(** [SpotRate{}] *)
Definition zero : t := mk "" 0%float zeroTime.
End SpotRate.

Module DiscountCurve.
Record t : Type :=
  mk { Currency : string; FlatRate : float; Compounding : string;
       Timestamp : Time }.
Definition zero : t := mk "" 0%float "" zeroTime.
End DiscountCurve.

Module VolSurface.
Record t : Type := mk { Pair : string; FlatVol : float; Timestamp : Time }.
Definition zero : t := mk "" 0%float zeroTime.
End VolSurface.

(** *** The heap of maps

    A value of a Go map type is a reference to a mutable table, or
    [nil]. The tables of the three map types live in three stores. *)

Definition loc : Type := positive.

(** A map value: [None] is the nil map. *)
Definition mapref : Type := option loc.

Record Heap : Type :=
  mkHeap { spotMaps : gmap loc (gmap string SpotRate.t);
           curveMaps : gmap loc (gmap string DiscountCurve.t);
           volMaps : gmap loc (gmap string VolSurface.t) }.

Definition emptyHeap : Heap := mkHeap ∅ ∅ ∅.

(** The table a map value denotes; reading a nil map finds no entry. *)
Definition deref {V : Type} (store : gmap loc (gmap string V)) (r : mapref)
  : gmap string V :=
  match r with
  | Some a => default ∅ (store !! a)
  | None => ∅
  end.
Global Arguments deref : simpl never.

(** [make(map[string]V)] and map literals: a table at a location the
    store does not use yet. *)
Definition alloc {V : Type} (store : gmap loc (gmap string V))
  (table : gmap string V) : loc * gmap loc (gmap string V) :=
  let a := fresh (dom store) in (a, <[a := table]> store).

(** [for k, v := range src { dst[k] = v }] into an empty [dst]. *)
Definition rangeCopy {V : Type} (src : gmap string V) : gmap string V :=
  map_fold (fun k v dst => <[k := v]> dst) ∅ src.

(** [len(m)] *)
Definition len {V : Type} (store : gmap loc (gmap string V)) (r : mapref) : Z :=
  Z.of_nat (size (deref store r)).

(** *** The logger: the entries written so far *)

Inductive Field : Type :=
| zap_String (key val : string)
| zap_Float64 (key : string) (val : float)
| zap_Int (key : string) (val : Z)
| zap_Time (key : string) (val : Time).

Record LogEntry : Type := Info { msg : string; fields : list Field }.

Definition Logger : Type := list LogEntry.

(** [zap.NewDevelopment()] *)
Definition zap_NewDevelopment : Logger := [].

(** [logger.Info(msg, fields...)] *)
Definition Logger_Info (l : Logger) (entry : LogEntry) : Logger :=
  (l ++ [entry])%list.

(** *** [MarketSnapshot] and [Manager] *)

Record MarketSnapshot : Type :=
  mkSnapshot { SpotRates : mapref; DiscountCurves : mapref;
               VolSurfaces : mapref; SnapshotTime : Time }.

(** [type Manager struct]; the mutex is not modelled, the methods run
    one at a time. *)
Record Manager : Type :=
  mkManager { spotRates : mapref; discountCurves : mapref;
              volSurfaces : mapref; logger : Logger }.

(** The program state the methods of one [*Manager] act on. *)
Record World : Type := mkWorld { heap : Heap; m : Manager }.

(** How a call that returns [error] ends: it returns ([nil] or an
    error), or a run-time panic unwinds it. *)
Inductive outcome : Type :=
| Returns (err : option error)
| Panics (reason : string).

Definition nilMapAssignment : string := "assignment to entry in nil map".

(** [func NewManager(logger *zap.Logger) *Manager] *)
Definition NewManager (logger : option Logger) (h : Heap) : World :=
  let logger := match logger with None => zap_NewDevelopment | Some l => l end in
  let spots := alloc (spotMaps h) ∅ in
  let curves := alloc (curveMaps h) ∅ in
  let vols := alloc (volMaps h) ∅ in
  mkWorld (mkHeap spots.2 curves.2 vols.2)
          (mkManager (Some spots.1) (Some curves.1) (Some vols.1) logger).

(** [func (m *Manager) UpdateSpotRate(pair string, rate float64) error] *)
Definition UpdateSpotRate (pair : string) (rate : float) (now : Time)
  (w : World) : outcome * World :=
  if PrimFloat.leb rate 0 then
    (Returns (Some (Errorf "invalid rate %f for pair %s: must be positive"
                           [ArgFloat64 rate; ArgString pair])), w)
  else
    match spotRates (m w) with
    | None => (Panics nilMapAssignment, w)
    | Some a =>
        let h := heap w in
        let table :=
          <[pair := SpotRate.mk pair rate now]> (deref (spotMaps h) (Some a)) in
        let entry :=
          Info "updated spot rate"
               [zap_String "pair" pair; zap_Float64 "rate" rate] in
        (Returns None,
         mkWorld (mkHeap (<[a := table]> (spotMaps h)) (curveMaps h) (volMaps h))
                 (mkManager (spotRates (m w)) (discountCurves (m w))
                            (volSurfaces (m w)) (Logger_Info (logger (m w)) entry)))
    end.

(** [func (m *Manager) GetSpotRate(pair string) (SpotRate, error)] *)
Definition GetSpotRate (pair : string) (w : World)
  : (SpotRate.t * option error) * World :=
  match deref (spotMaps (heap w)) (spotRates (m w)) !! pair with
  | None =>
      ((SpotRate.zero,
        Some (Errorf "spot rate not found for pair %s" [ArgString pair])), w)
  | Some spot => ((spot, None), w)
  end.

(** [func (m *Manager) UpdateDiscountCurve(currency string,
    flatRate float64, compounding string) error] *)
Definition UpdateDiscountCurve (currency : string) (flatRate : float)
  (compounding : string) (now : Time) (w : World) : outcome * World :=
  if PrimFloat.ltb flatRate 0 then
    (Returns (Some (Errorf
       "invalid flat rate %f for currency %s: must be non-negative"
       [ArgFloat64 flatRate; ArgString currency])), w)
  else
    match discountCurves (m w) with
    | None => (Panics nilMapAssignment, w)
    | Some a =>
        let h := heap w in
        let table :=
          <[currency := DiscountCurve.mk currency flatRate compounding now]>
            (deref (curveMaps h) (Some a)) in
        let entry :=
          Info "updated discount curve"
               [zap_String "currency" currency; zap_Float64 "flat_rate" flatRate;
                zap_String "compounding" compounding] in
        (Returns None,
         mkWorld (mkHeap (spotMaps h) (<[a := table]> (curveMaps h)) (volMaps h))
                 (mkManager (spotRates (m w)) (discountCurves (m w))
                            (volSurfaces (m w)) (Logger_Info (logger (m w)) entry)))
    end.

(** [func (m *Manager) GetDiscountCurve(currency string)
    (DiscountCurve, error)] *)
Definition GetDiscountCurve (currency : string) (w : World)
  : (DiscountCurve.t * option error) * World :=
  match deref (curveMaps (heap w)) (discountCurves (m w)) !! currency with
  | None =>
      ((DiscountCurve.zero,
        Some (Errorf "discount curve not found for currency %s"
                     [ArgString currency])), w)
  | Some curve => ((curve, None), w)
  end.

(** [func (m *Manager) UpdateVolSurface(pair string, flatVol float64) error] *)
Definition UpdateVolSurface (pair : string) (flatVol : float) (now : Time)
  (w : World) : outcome * World :=
  if PrimFloat.ltb flatVol 0 || PrimFloat.ltb 1 flatVol then
    (Returns (Some (Errorf
       "invalid flat volatility %f for pair %s: must be between 0 and 1"
       [ArgFloat64 flatVol; ArgString pair])), w)
  else
    match volSurfaces (m w) with
    | None => (Panics nilMapAssignment, w)
    | Some a =>
        let h := heap w in
        let table :=
          <[pair := VolSurface.mk pair flatVol now]>
            (deref (volMaps h) (Some a)) in
        let entry :=
          Info "updated vol surface"
               [zap_String "pair" pair; zap_Float64 "flat_vol" flatVol] in
        (Returns None,
         mkWorld (mkHeap (spotMaps h) (curveMaps h) (<[a := table]> (volMaps h)))
                 (mkManager (spotRates (m w)) (discountCurves (m w))
                            (volSurfaces (m w)) (Logger_Info (logger (m w)) entry)))
    end.

(** [func (m *Manager) GetVolSurface(pair string) (VolSurface, error)] *)
Definition GetVolSurface (pair : string) (w : World)
  : (VolSurface.t * option error) * World :=
  match deref (volMaps (heap w)) (volSurfaces (m w)) !! pair with
  | None =>
      ((VolSurface.zero,
        Some (Errorf "vol surface not found for pair %s" [ArgString pair])), w)
  | Some surface => ((surface, None), w)
  end.

(** [func (m *Manager) GetSnapshot() MarketSnapshot]: three new tables,
    each filled entry by entry from the Manager's. *)
Definition GetSnapshot (now : Time) (w : World) : MarketSnapshot * World :=
  let h := heap w in
  let spots :=
    alloc (spotMaps h) (rangeCopy (deref (spotMaps h) (spotRates (m w)))) in
  let curves :=
    alloc (curveMaps h)
          (rangeCopy (deref (curveMaps h) (discountCurves (m w)))) in
  let vols :=
    alloc (volMaps h) (rangeCopy (deref (volMaps h) (volSurfaces (m w)))) in
  (mkSnapshot (Some spots.1) (Some curves.1) (Some vols.1) now,
   mkWorld (mkHeap spots.2 curves.2 vols.2) (m w)).

(** [func (m *Manager) LoadSnapshot(snapshot MarketSnapshot)]: the three
    fields of the Manager are assigned the snapshot's map values. *)
Definition LoadSnapshot (snapshot : MarketSnapshot) (w : World) : World :=
  let h := heap w in
  let entry :=
    Info "loaded market snapshot"
         [zap_Int "spot_rates" (len (spotMaps h) (SpotRates snapshot));
          zap_Int "discount_curves" (len (curveMaps h) (DiscountCurves snapshot));
          zap_Int "vol_surfaces" (len (volMaps h) (VolSurfaces snapshot));
          zap_Time "snapshot_time" (SnapshotTime snapshot)] in
  mkWorld h
          (mkManager (SpotRates snapshot) (DiscountCurves snapshot)
                     (VolSurfaces snapshot) (Logger_Info (logger (m w)) entry)).

(** [func (m *Manager) Stats() map[string]int] *)
Definition Stats (w : World) : gmap string Z * World :=
  let h := heap w in
  (<["spot_rates" := len (spotMaps h) (spotRates (m w))]>
     (<["discount_curves" := len (curveMaps h) (discountCurves (m w))]>
        (<["vol_surfaces" := len (volMaps h) (volSurfaces (m w))]> ∅)),
   w).

(** *** Call sequences

    The calls a client makes, as data: the four mutating methods,
    [GetSnapshot] (which allocates), and the client's own construction
    of a map it may then hand over inside a [MarketSnapshot]. *)

Inductive Op : Type :=
| CallUpdateSpotRate (pair : string) (rate : float) (now : Time)
| CallUpdateDiscountCurve (currency : string) (flatRate : float)
                          (compounding : string) (now : Time)
| CallUpdateVolSurface (pair : string) (flatVol : float) (now : Time)
| CallLoadSnapshot (snapshot : MarketSnapshot)
| CallGetSnapshot (now : Time)
| MakeSpotRates (table : gmap string SpotRate.t)
| MakeDiscountCurves (table : gmap string DiscountCurve.t)
| MakeVolSurfaces (table : gmap string VolSurface.t).

Definition exec (o : Op) (w : World) : World :=
  match o with
  | CallUpdateSpotRate pair_ rate now => (UpdateSpotRate pair_ rate now w).2
  | CallUpdateDiscountCurve currency flatRate compounding now =>
      (UpdateDiscountCurve currency flatRate compounding now w).2
  | CallUpdateVolSurface pair_ flatVol now =>
      (UpdateVolSurface pair_ flatVol now w).2
  | CallLoadSnapshot snapshot => LoadSnapshot snapshot w
  | CallGetSnapshot now => (GetSnapshot now w).2
  | MakeSpotRates table =>
      let h := heap w in
      mkWorld (mkHeap (alloc (spotMaps h) table).2 (curveMaps h) (volMaps h))
              (m w)
  | MakeDiscountCurves table =>
      let h := heap w in
      mkWorld (mkHeap (spotMaps h) (alloc (curveMaps h) table).2 (volMaps h))
              (m w)
  | MakeVolSurfaces table =>
      let h := heap w in
      mkWorld (mkHeap (spotMaps h) (curveMaps h) (alloc (volMaps h) table).2)
              (m w)
  end.

Definition run (ops : list Op) (w : World) : World :=
  fold_left (fun w o => exec o w) ops w.

(** The calls named as the public mutating operations. *)
Definition isPublicUpdate (o : Op) : bool :=
  match o with
  | CallUpdateSpotRate _ _ _ | CallUpdateDiscountCurve _ _ _ _
  | CallUpdateVolSurface _ _ _ | CallLoadSnapshot _ => true
  | _ => false
  end.

(** What a snapshot holds, read through the heap. *)
Definition contents (s : MarketSnapshot) (h : Heap)
  : gmap string SpotRate.t * gmap string DiscountCurve.t
    * gmap string VolSurface.t :=
  (deref (spotMaps h) (SpotRates s),
   deref (curveMaps h) (DiscountCurves s),
   deref (volMaps h) (VolSurfaces s)).

(** What the Manager stores, read through the heap. *)
Definition stored (w : World)
  : gmap string SpotRate.t * gmap string DiscountCurve.t
    * gmap string VolSurface.t :=
  (deref (spotMaps (heap w)) (spotRates (m w)),
   deref (curveMaps (heap w)) (discountCurves (m w)),
   deref (volMaps (heap w)) (volSurfaces (m w))).

(** A map value of a running program is nil or refers to a table of
    the heap. *)
Definition validRef {V : Type} (store : gmap loc (gmap string V)) (r : mapref)
  : Prop :=
  match r with
  | Some a => a ∈ dom store
  | None => True
  end.
Global Arguments validRef : simpl never.

(** Every rate of a spot-rate table is strictly positive. *)
Definition positiveRates (table : gmap string SpotRate.t) : Prop :=
  ∀ key spot, table !! key = Some spot →
              PrimFloat.ltb 0 (SpotRate.Rate spot) = true.

(** The Manager's spot-rate map is a map of the heap and holds strictly
    positive rates. *)
Definition spotsPositive (w : World) : Prop :=
  validRef (spotMaps (heap w)) (spotRates (m w)) ∧
  positiveRates (deref (spotMaps (heap w)) (spotRates (m w))).

(** The calls under which the positivity of the stored spot rates is
    kept: a spot update whose rate is a number (not NaN), and the load
    of a snapshot whose spot-rate map holds strictly positive rates
    when it is loaded; any other call. *)
Definition admissible (o : Op) (w : World) : Prop :=
  match o with
  | CallUpdateSpotRate _ rate _ => PrimFloat.is_nan rate = false
  | CallLoadSnapshot snapshot =>
      validRef (spotMaps (heap w)) (SpotRates snapshot) ∧
      positiveRates (deref (spotMaps (heap w)) (SpotRates snapshot))
  | _ => True
  end.

Fixpoint admissibleRun (ops : list Op) (w : World) : Prop :=
  match ops with
  | [] => True
  | o :: ops' => admissible o w ∧ admissibleRun ops' (exec o w)
  end.

(** The three maps of the Manager are maps of the heap (or nil). *)
Definition wellFormed (w : World) : Prop :=
  validRef (spotMaps (heap w)) (spotRates (m w)) ∧
  validRef (curveMaps (heap w)) (discountCurves (m w)) ∧
  validRef (volMaps (heap w)) (volSurfaces (m w)).

(** A call that does not hand a map of the snapshot [s] to the Manager:
    any call but a [LoadSnapshot] of a snapshot sharing a map with [s]. *)
Definition keepsApart (s : MarketSnapshot) (o : Op) : Prop :=
  match o with
  | CallLoadSnapshot s' =>
      SpotRates s' ≠ SpotRates s ∧ DiscountCurves s' ≠ DiscountCurves s ∧
      VolSurfaces s' ≠ VolSurfaces s
  | _ => True
  end.

(** The snapshot [s] refers to maps of the heap, none of them a map of
    the Manager. *)
Definition apart (s : MarketSnapshot) (w : World) : Prop :=
  (validRef (spotMaps (heap w)) (SpotRates s) ∧
   validRef (curveMaps (heap w)) (DiscountCurves s) ∧
   validRef (volMaps (heap w)) (VolSurfaces s)) ∧
  (spotRates (m w) ≠ SpotRates s ∧ discountCurves (m w) ≠ DiscountCurves s ∧
   volSurfaces (m w) ≠ VolSurfaces s).

(** *** A client session

    The client builds a map with one quote, loads it in a snapshot and
    then updates a second pair. *)
Definition sterling : SpotRate.t := SpotRate.mk "GBP/USD" 1.27%float 0.

Definition session : list Op :=
  [MakeSpotRates (<["GBP/USD" := sterling]> ∅);
   CallLoadSnapshot (mkSnapshot (Some 2%positive) None None 3);
   CallUpdateSpotRate "EUR/USD" 1.10%float 4].

(** *** A client that loads a snapshot back

    One quote is stored, a snapshot is taken, and the client then hands
    that same snapshot to [LoadSnapshot] and updates the quote. *)
Definition quoted : World :=
  (UpdateSpotRate "EUR/USD" 1.10%float 1 (NewManager None emptyHeap)).2.

Definition taken : MarketSnapshot * World := GetSnapshot 2 quoted.

Definition reload : list Op :=
  [CallLoadSnapshot taken.1; CallUpdateSpotRate "EUR/USD" 2%float 3].

(** *** A client that loads its own snapshot

    [map[string]SpotRate{"EUR/USD": {Pair: "EUR/USD", Rate: -1}}], built
    by the client before it creates the Manager, and the snapshot
    [MarketSnapshot{SpotRates: thatMap}] (the other maps nil). *)
Definition negativeQuote : SpotRate.t := SpotRate.mk "EUR/USD" (-1)%float 0.

Definition clientHeap : Heap :=
  mkHeap (alloc ∅ (<["EUR/USD" := negativeQuote]> ∅)).2 ∅ ∅.

Definition clientSnapshot : MarketSnapshot :=
  mkSnapshot (Some (alloc (∅ : gmap loc (gmap string SpotRate.t)) ∅).1)
             None None 0.

(** *** Conditions on call sequences and on what is stored *)

(** None of the three maps of the Manager is nil. *)
Definition nonNil (w : World) : Prop :=
  spotRates (m w) ≠ None ∧ discountCurves (m w) ≠ None ∧
  volSurfaces (m w) ≠ None.

(** A call that hands no nil map to the Manager. *)
Definition loadsNonNil (o : Op) : Prop :=
  match o with
  | CallLoadSnapshot s =>
      SpotRates s ≠ None ∧ DiscountCurves s ≠ None ∧ VolSurfaces s ≠ None
  | _ => True
  end.

(** Any call but [LoadSnapshot]. *)
Definition noLoad (o : Op) : Prop :=
  match o with
  | CallLoadSnapshot _ => False
  | _ => True
  end.

(** An update whose number is not NaN; any other call. *)
Definition numeric (o : Op) : Prop :=
  match o with
  | CallUpdateSpotRate _ x _ | CallUpdateDiscountCurve _ x _ _
  | CallUpdateVolSurface _ x _ => PrimFloat.is_nan x = false
  | _ => True
  end.

(** Every stored entry names the key it is stored under. *)
Definition keyed (w : World) : Prop :=
  (∀ k v, (stored w).1.1 !! k = Some v → SpotRate.Pair v = k) ∧
  (∀ k v, (stored w).1.2 !! k = Some v → DiscountCurve.Currency v = k) ∧
  (∀ k v, (stored w).2 !! k = Some v → VolSurface.Pair v = k).

(** Every stored flat rate is at least 0 and every stored flat
    volatility lies between 0 and 1. *)
Definition bounded (w : World) : Prop :=
  (∀ k v, (stored w).1.2 !! k = Some v →
          PrimFloat.leb 0 (DiscountCurve.FlatRate v) = true) ∧
  (∀ k v, (stored w).2 !! k = Some v →
          PrimFloat.leb 0 (VolSurface.FlatVol v) = true ∧
          PrimFloat.leb (VolSurface.FlatVol v) 1 = true).

(** The market set-up of the option-pricing example ([main], step 1):
    one spot rate, two discount curves, one volatility, then a
    snapshot; the instants are those of the successive calls. *)
Definition exampleSetup : list Op :=
  [CallUpdateSpotRate "EUR/USD" 1.10%float 1;
   CallUpdateDiscountCurve "USD" 0.05%float "continuous" 2;
   CallUpdateDiscountCurve "EUR" 0.03%float "continuous" 3;
   CallUpdateVolSurface "EUR/USD" 0.12%float 4;
   CallGetSnapshot 5].

(** The quote of a stored spot rate: its pair and rate, without the
    time of the update. *)
Definition quote (v : SpotRate.t) : string * float :=
  (SpotRate.Pair v, SpotRate.Rate v).

(** [MarketSnapshot{}] *)
Definition zeroSnapshot : MarketSnapshot := mkSnapshot None None None zeroTime.

End market.

(** ** The pricing core

    The gateway sends contracts to a valuation engine that is not part
    of the Go sources. Its data model and reduction rules are written
    here as the specification gives them. *)

Module core.

Inductive Currency : Type := USD | EUR | GBP | JPY | CHF | AUD | CAD.

(** Calendar dates, as day numbers. *)
Definition Date : Type := Z.

Inductive OptionKind : Type := Call | Put.
Inductive Direction : Type := Up | Down.

(** Modelled from the spec: the Observable variant of the data model
    (the engine's Observable type is missing from the sources); the
    payload of the two unsupported combinators is left out. *)
Inductive Observable : Type :=
| ConstBool (b : bool)
| SpotRateObs (domestic foreign : Currency)
| ForwardRateObs (domestic foreign : Currency) (maturity : Date)
| Barrier (direction : Direction) (level : float) (underlying : Observable)
| MapObs
| ApplyObs.

(** Modelled from the spec: the Contract variant of the data model, the
    canonical in-memory shape with its eight variants (the engine's
    Contract type is missing from the sources). *)
Inductive Contract : Type :=
| Zero
| Spot (domestic foreign : Currency)
| Forward (maturity : Date) (fixedRate : float) (domestic foreign : Currency)
| EurOption (kind : OptionKind) (strike : float) (maturity : Date)
            (domestic foreign : Currency)
| ZCB (currency : Currency) (maturity : Date)
| Scale (notional : float) (child : Contract)
| Combine (left right : Contract)
| When (condition : Observable) (child : Contract).

Inductive Curve : Type :=
| FlatRate (rate : float) (compounding : string)
| PillarCurve (points : list (Date * float)) (interpolation : string).

Inductive Surface : Type :=
| FlatVol (vol : float)
| VolGrid (points : list (float * Date * float)) (interpolation : string).

(** Modelled from the spec: the MarketModel value object; a mapping is a
    partial function, pairs are ordered (foreign, domestic). *)
Record MarketModel : Type :=
  mkMarketModel
    { spotRates : Currency * Currency -> option float;
      discountCurves : Currency -> option Curve;
      volSurfaces : Currency * Currency -> option Surface;
      correlations : string -> option float }.

Inductive PricingModel : Type := BlackScholes | LocalVol | Heston.

Record PricingParams : Type :=
  mkPricingParams
    { valuationDate : Date; numeraire : Currency; model : PricingModel }.

Inductive Failure : Type :=
| MissingMarketData (key : string)
| InvalidDate
| UnsupportedModel
| UnsupportedInterpolation
| UnsupportedObservable
| TypeMismatch
| MalformedContract
| NumericDomainError.

(** A price or a typed failure. *)
Inductive Result (A : Type) : Type :=
| Ok (a : A)
| Fail (f : Failure).
Arguments Ok {A} a.
Arguments Fail {A} f.

#[export] Instance Result_bind : MBind Result :=
  fun A B k r =>
    match r with
    | Ok a => k a
    | Fail f => Fail f
    end.

Inductive Value : Type :=
| VBool (b : bool)
| VNum (x : float).

Definition currencyName (c : Currency) : string :=
  match c with
  | USD => "USD" | EUR => "EUR" | GBP => "GBP" | JPY => "JPY"
  | CHF => "CHF" | AUD => "AUD" | CAD => "CAD"
  end.

(** Node count of a contract tree. *)
Fixpoint nodes (c : Contract) : Z :=
  match c with
  | Scale _ child => 1 + nodes child
  | Combine l r => 1 + nodes l + nodes r
  | When _ child => 1 + nodes child
  | _ => 1
  end.

Definition defaultNodeLimit : Z := 1000.

Definition fmax0 (x : float) : float := if PrimFloat.ltb 0 x then x else 0%float.

Section Valuation.

(** What the specification names without defining: the numeric
    primitives, the curve and surface resolvers of its section 4.1 and
    the triangulation rule of its section 4.2; and the node limit, which
    it leaves configurable. *)
Variable ln Phi : float -> float.
Variable yearFraction : Date -> Date -> float.
Variable resolveCurve : Curve -> Date -> Date -> Result float.
Variable resolveSurface : Surface -> float -> Date -> Result float.
Variable spot : MarketModel -> Currency -> Currency -> Result float.
Variable nodeLimit : Z.

Variable mm : MarketModel.
Variable pp : PricingParams.

(** Modelled from the spec: the guard of its section 7, a computed value
    that is not finite is caught as [NumericDomainError] before it
    propagates (the engine's arithmetic is missing from the sources). *)
Definition checked (x : float) : Result float :=
  if PrimFloat.is_finite x then Ok x else Fail NumericDomainError.

(** DF_ccy(t) *)
Definition DF (ccy : Currency) (t : Date) : Result float :=
  match discountCurves mm ccy with
  | None => Fail (MissingMarketData (currencyName ccy))
  | Some curve => resolveCurve curve (valuationDate pp) t
  end.

(** F = spot(f,d) x DF_f(maturity) / DF_d(maturity) *)
Definition forwardRate (d f : Currency) (maturity : Date) : Result float :=
  s ← spot mm f d;
  dff ← DF f maturity;
  dfd ← DF d maturity;
  checked (PrimFloat.div (PrimFloat.mul s dff) dfd).

(** Modelled from the spec: the observable evaluator of section 4.2
    (missing from the sources). *)
Fixpoint evaluate (o : Observable) : Result Value :=
  match o with
  | ConstBool b => Ok (VBool b)
  | SpotRateObs d f => s ← spot mm f d; Ok (VNum s)
  | ForwardRateObs d f maturity =>
      fw ← forwardRate d f maturity; Ok (VNum fw)
  | Barrier dir level underlying =>
      v ← evaluate underlying;
      match v with
      | VNum x =>
          Ok (VBool match dir with
                    | Up => PrimFloat.leb level x
                    | Down => PrimFloat.leb x level
                    end)
      | VBool _ => Fail TypeMismatch
      end
  | MapObs | ApplyObs => Fail UnsupportedObservable
  end.

Definition volAt (d f : Currency) (strike : float) (maturity : Date)
  : Result float :=
  match volSurfaces mm (f, d) with
  | None =>
      Fail (MissingMarketData (currencyName f ++ "/" ++ currencyName d))
  | Some surface => resolveSurface surface strike maturity
  end.

(** The Garman-Kohlhagen rule for [EurOption], in domestic units. *)
Definition optionValue (kind : OptionKind) (K : float) (maturity : Date)
  (d f : Currency) : Result float :=
  let tau := yearFraction (valuationDate pp) maturity in
  if PrimFloat.ltb tau 0 then Fail InvalidDate else
  fw ← forwardRate d f maturity;
  sigma ← volAt d f K maturity;
  dfd ← DF d maturity;
  if PrimFloat.eqb sigma 0 || PrimFloat.eqb tau 0 then
    checked (PrimFloat.mul dfd
               (fmax0 match kind with
                      | Call => PrimFloat.sub fw K
                      | Put => PrimFloat.sub K fw
                      end))
  else if PrimFloat.leb (PrimFloat.div fw K) 0 then Fail NumericDomainError
  else
    let sd := PrimFloat.mul sigma (PrimFloat.sqrt tau) in
    let d1 :=
      PrimFloat.div
        (PrimFloat.add (ln (PrimFloat.div fw K))
           (PrimFloat.mul (PrimFloat.mul 0.5 (PrimFloat.mul sigma sigma)) tau))
        sd in
    let d2 := PrimFloat.sub d1 sd in
    let call :=
      PrimFloat.mul dfd
        (PrimFloat.sub (PrimFloat.mul fw (Phi d1)) (PrimFloat.mul K (Phi d2))) in
    checked match kind with
            | Call => call
            | Put => PrimFloat.sub call (PrimFloat.mul dfd (PrimFloat.sub fw K))
            end.

(** Modelled from the spec: the recursive reduction rules of the
    valuation engine, section 4.3, each computed value passing the guard
    of section 7 (the engine's reduction is missing from the sources). *)
Fixpoint reduce (c : Contract) : Result float :=
  match c with
  | Zero => Ok 0%float
  | Spot d f => s ← spot mm f (numeraire pp); checked s
  | ZCB ccy maturity =>
      if Z.ltb maturity (valuationDate pp) then Fail InvalidDate else
      df ← DF ccy maturity;
      s ← spot mm ccy (numeraire pp);
      checked (PrimFloat.mul df s)
  | Forward maturity K d f =>
      fw ← forwardRate d f maturity;
      dfd ← DF d maturity;
      s ← spot mm d (numeraire pp);
      checked (PrimFloat.mul (PrimFloat.mul dfd (PrimFloat.sub fw K)) s)
  | EurOption kind K maturity d f =>
      v ← optionValue kind K maturity d f;
      s ← spot mm d (numeraire pp);
      checked (PrimFloat.mul v s)
  | Scale n child =>
      p ← reduce child; checked (PrimFloat.mul n p)
  | Combine l r =>
      pl ← reduce l; pr ← reduce r; checked (PrimFloat.add pl pr)
  | When cond child =>
      v ← evaluate cond;
      match v with
      | VBool true => reduce child
      | VBool false => Ok 0%float
      | VNum _ => Fail TypeMismatch
      end
  end.

(** Modelled from the spec: [price], the valuation engine's sole entry
    point (missing from the sources). A tree beyond the node limit is
    rejected as [MalformedContract] (sections 3 and 7), a model other
    than Black-Scholes as [UnsupportedModel] (section 3); otherwise the
    contract is reduced by the rules of section 4.3. *)
Definition price (c : Contract) : Result float :=
  if Z.ltb nodeLimit (nodes c) then Fail MalformedContract else
  match model pp with
  | BlackScholes => reduce c
  | LocalVol | Heston => Fail UnsupportedModel
  end.

End Valuation.

(** A contract of [k + 1] nodes: [Zero] under [k] scalings by 1. *)
Fixpoint ladder (k : nat) : Contract :=
  match k with
  | O => Zero
  | S k' => Scale 1%float (ladder k')
  end.

(** A market in which every spot rate resolves to [x] and nothing else
    is quoted, priced in USD under Black-Scholes at the node limit given. *)
Definition flatPrice (x : float) (limit : Z) (c : Contract) : Result float :=
  price (fun y => y) (fun y => y) (fun _ _ => 1%float)
        (fun _ _ _ => Ok 1%float) (fun _ _ _ => Ok 0.12%float)
        (fun _ _ _ => Ok x) limit
        (mkMarketModel (fun _ => None) (fun _ => None) (fun _ => None)
                       (fun _ => None))
        (mkPricingParams 0 USD BlackScholes) c.

End core.

(** ** The Go contract model against the canonical shape *)

Definition toCurrency (c : models.Currency) : option core.Currency :=
  if Z.eqb c models.USD then Some core.USD
  else if Z.eqb c models.EUR then Some core.EUR
  else if Z.eqb c models.GBP then Some core.GBP
  else if Z.eqb c models.JPY then Some core.JPY
  else if Z.eqb c models.CHF then Some core.CHF
  else if Z.eqb c models.AUD then Some core.AUD
  else if Z.eqb c models.CAD then Some core.CAD
  else None.

Definition ofCurrency (c : core.Currency) : models.Currency :=
  match c with
  | core.USD => models.USD | core.EUR => models.EUR | core.GBP => models.GBP
  | core.JPY => models.JPY | core.CHF => models.CHF | core.AUD => models.AUD
  | core.CAD => models.CAD
  end.

Definition toOptionKind (o : models.OptionType) : option core.OptionKind :=
  if Z.eqb o models.Call then Some core.Call
  else if Z.eqb o models.Put then Some core.Put
  else None.

Definition ofOptionKind (k : core.OptionKind) : models.OptionType :=
  match k with core.Call => models.Call | core.Put => models.Put end.

(** The canonical contract a Go [Contract] value stands for: each struct
    type goes to the variant of the same name, field by field; a currency
    or option type outside the declared constants stands for nothing. *)
Fixpoint toCanonical (c : models.Contract) : option core.Contract :=
  match c with
  | models.Zero => Some core.Zero
  | models.Spot d f =>
      d' ← toCurrency d; f' ← toCurrency f; Some (core.Spot d' f')
  | models.Forward mat rate d f =>
      d' ← toCurrency d; f' ← toCurrency f;
      Some (core.Forward mat rate d' f')
  | models.EurOption ty strike mat d f =>
      k ← toOptionKind ty; d' ← toCurrency d; f' ← toCurrency f;
      Some (core.EurOption k strike mat d' f')
  | models.ZCB ccy mat => ccy' ← toCurrency ccy; Some (core.ZCB ccy' mat)
  | models.Scale n child =>
      child' ← toCanonical child; Some (core.Scale n child')
  | models.Combine l r =>
      l' ← toCanonical l; r' ← toCanonical r; Some (core.Combine l' r')
  end.

(** The Go value built for a canonical contract with the builder
    functions; there is no builder, and no struct type, for [When]. *)
Fixpoint ofCanonical (c : core.Contract) : option models.Contract :=
  match c with
  | core.Zero => Some models.Zero
  | core.Spot d f => Some (models.NewSpot (ofCurrency d) (ofCurrency f))
  | core.Forward mat rate d f =>
      Some (models.NewForward mat rate (ofCurrency d) (ofCurrency f))
  | core.EurOption k strike mat d f =>
      Some (models.NewEurOption (ofOptionKind k) strike mat
              (ofCurrency d) (ofCurrency f))
  | core.ZCB ccy mat => Some (models.NewZCB (ofCurrency ccy) mat)
  | core.Scale n child =>
      child' ← ofCanonical child; Some (models.NewScale n child')
  | core.Combine l r =>
      l' ← ofCanonical l; r' ← ofCanonical r; Some (models.NewCombine l' r')
  | core.When _ _ => None
  end.

(** A canonical contract with no [When] node. *)
Fixpoint whenFree (c : core.Contract) : bool :=
  match c with
  | core.Scale _ child => whenFree child
  | core.Combine l r => whenFree l && whenFree r
  | core.When _ _ => false
  | _ => true
  end.

(** ** Package [config] *)

Module config.

Module ServerConfig.
Record t : Type :=
  mk { Address : string; ConnectTimeout : Z; RequestTimeout : Z;
       EnableTLS : bool; CertFile : string }.
End ServerConfig.

Module LoggingConfig.
Record t : Type := mk { Level : string; Format : string; OutputPath : string }.
End LoggingConfig.

Module MarketConfig.
Record t : Type :=
  mk { DefaultCurrency : string; DefaultVolatility : float;
       DefaultRate : float; UpdateIntervalMs : Z }.
End MarketConfig.

Record Config : Type :=
  mkConfig { Server : ServerConfig.t; Logging : LoggingConfig.t;
             Market : MarketConfig.t }.

(** [func getDefaultConfig() *Config] *)
Definition getDefaultConfig : Config :=
  mkConfig (ServerConfig.mk "localhost:50051" 5 30 false "")
           (LoggingConfig.mk "info" "console" "stdout")
           (MarketConfig.mk "USD" 0.12%float 0.05%float 1000).

(** [func GetConfig() *Config], on the package variable [config]
    ([None] is the nil pointer): the configuration returned and the
    variable after the call. *)
Definition GetConfig (config : option Config) : Config * option Config :=
  match config with
  | None => (getDefaultConfig, Some getDefaultConfig)
  | Some c => (c, Some c)
  end.

Definition validLevels : gmap string bool :=
  list_to_map [("debug", true); ("info", true); ("warn", true); ("error", true)].

Definition validFormats : gmap string bool :=
  list_to_map [("json", true); ("console", true)].

(** Reading a [map[string]bool]: a missing key reads as [false]. *)
Definition index (table : gmap string bool) (key : string) : bool :=
  default false (table !! key).

(** [func (c *Config) Validate() error], on a non-nil receiver. *)
Definition Validate (c : Config) : option error :=
  if String.eqb (ServerConfig.Address (Server c)) "" then
    Some (Errorf "server address cannot be empty" [])
  else if Z.leb (ServerConfig.ConnectTimeout (Server c)) 0 then
    Some (Errorf "connect timeout must be positive" [])
  else if Z.leb (ServerConfig.RequestTimeout (Server c)) 0 then
    Some (Errorf "request timeout must be positive" [])
  else if ServerConfig.EnableTLS (Server c)
          && String.eqb (ServerConfig.CertFile (Server c)) "" then
    Some (Errorf "cert file required when TLS is enabled" [])
  else if negb (index validLevels (LoggingConfig.Level (Logging c))) then
    Some (Errorf "invalid log level: %s"
                 [ArgString (LoggingConfig.Level (Logging c))])
  else if negb (index validFormats (LoggingConfig.Format (Logging c))) then
    Some (Errorf "invalid log format: %s"
                 [ArgString (LoggingConfig.Format (Logging c))])
  else if PrimFloat.ltb (MarketConfig.DefaultVolatility (Market c)) 0
          || PrimFloat.ltb 1 (MarketConfig.DefaultVolatility (Market c)) then
    Some (Errorf "default volatility must be between 0 and 1" [])
  else if Z.ltb (MarketConfig.UpdateIntervalMs (Market c)) 0 then
    Some (Errorf "update interval must be non-negative" [])
  else None.

(** What [Validate] requires of a configuration. *)
Definition acceptable (c : Config) : Prop :=
  ServerConfig.Address (Server c) ≠ "" ∧
  (0 < ServerConfig.ConnectTimeout (Server c))%Z ∧
  (0 < ServerConfig.RequestTimeout (Server c))%Z ∧
  (ServerConfig.EnableTLS (Server c) = true →
   ServerConfig.CertFile (Server c) ≠ "") ∧
  LoggingConfig.Level (Logging c) ∈ ["debug"; "info"; "warn"; "error"] ∧
  LoggingConfig.Format (Logging c) ∈ ["json"; "console"] ∧
  PrimFloat.ltb (MarketConfig.DefaultVolatility (Market c)) 0 = false ∧
  PrimFloat.ltb 1 (MarketConfig.DefaultVolatility (Market c)) = false ∧
  (0 ≤ MarketConfig.UpdateIntervalMs (Market c))%Z.

End config.

(** ** Package [client] *)

Module client.

(** A [*grpc.ClientConn], by the target it was dialled for. *)
Record ClientConn : Type := connTo { target : string }.

(** The errors the client returns: made by [fmt.Errorf] without [%w],
    produced by a library, or made by [fmt.Errorf] around a cause
    ([%w]). *)
Inductive goError : Type :=
| Created (e : error)
| Foreign (text : string)
| Wrapped (format : string) (operands : list fmtArg) (cause : goError).

(** [type PricerClient struct], as [NewPricerClient] builds it: the
    logger is not nil. *)
Record PricerClient : Type :=
  mk { conn : option ClientConn; logger : market.Logger; addr : string }.

(** [func NewPricerClient(addr string, logger *zap.Logger)], returning
    the client and an error; [dev] is what [zap.NewDevelopment()]
    returns when it is called. *)
Definition NewPricerClient (addr : string) (logger : option market.Logger)
  (dev : market.Logger + goError) : option PricerClient * option goError :=
  match logger with
  | Some l => (Some (mk None l addr), None)
  | None =>
      match dev with
      | inl l => (Some (mk None l addr), None)
      | inr err => (None, Some (Wrapped "failed to create logger: %w" [] err))
      end
  end.

(** [func (c *PricerClient) Connect(ctx context.Context) error];
    [dialled] is what [grpc.DialContext] returns within the timeout. *)
Definition Connect (dialled : ClientConn + goError) (c : PricerClient)
  : option goError * PricerClient :=
  let l :=
    market.Logger_Info (logger c)
      (market.Info "connecting to pricing service"
                   [market.zap_String "address" (addr c)]) in
  match dialled with
  | inr err =>
      (Some (Wrapped "failed to connect to pricing service at %s: %w"
                     [ArgString (addr c)] err),
       mk (conn c) l (addr c))
  | inl cn =>
      (None,
       mk (Some cn)
          (market.Logger_Info l
             (market.Info "successfully connected to pricing service" []))
          (addr c))
  end.

(** [func (c *PricerClient) Close() error]; [closed] is what
    [c.conn.Close()] returns. *)
Definition Close (closed : option goError) (c : PricerClient)
  : option goError * PricerClient :=
  match conn c with
  | Some _ =>
      (closed,
       mk (conn c)
          (market.Logger_Info (logger c)
             (market.Info "closing connection to pricing service" []))
          (addr c))
  | None => (None, c)
  end.

(** [func (c *PricerClient) IsConnected() bool] *)
Definition IsConnected (c : PricerClient) : bool :=
  match conn c with
  | Some _ => true
  | None => false
  end.

Definition notConnected : goError := Created (Errorf "client not connected" []).

Definition notImplemented : goError :=
  Created (Errorf "not implemented: awaiting protobuf schema generation" []).

(** The body shared by the three placeholder requests. *)
Definition placeholder (message : string) (c : PricerClient)
  : option goError * PricerClient :=
  if negb (IsConnected c) then (Some notConnected, c)
  else
    (Some notImplemented,
     mk (conn c) (market.Logger_Info (logger c) (market.Info message []))
        (addr c)).

(** [func (c *PricerClient) PriceRequest(ctx context.Context) error] *)
Definition PriceRequest (c : PricerClient) : option goError * PricerClient :=
  placeholder "price request placeholder - awaiting protobuf generation" c.

(** [func (c *PricerClient) UpdateMarket(ctx context.Context) error] *)
Definition UpdateMarket (c : PricerClient) : option goError * PricerClient :=
  placeholder "market update placeholder - awaiting protobuf generation" c.

(** [func (c *PricerClient) HealthCheck(ctx context.Context) error] *)
Definition HealthCheck (c : PricerClient) : option goError * PricerClient :=
  placeholder "health check placeholder - awaiting protobuf generation" c.

(** The calls a program makes on one client, each with what the
    library returns to it. *)
Inductive Call : Type :=
| DoConnect (dialled : ClientConn + goError)
| DoClose (closed : option goError)
| DoPriceRequest
| DoUpdateMarket
| DoHealthCheck.

Definition perform (k : Call) (c : PricerClient) : option goError * PricerClient :=
  match k with
  | DoConnect dialled => Connect dialled c
  | DoClose closed => Close closed c
  | DoPriceRequest => PriceRequest c
  | DoUpdateMarket => UpdateMarket c
  | DoHealthCheck => HealthCheck c
  end.

Definition performAll (ks : list Call) (c : PricerClient) : PricerClient :=
  fold_left (fun c k => (perform k c).2) ks c.

(** A dial that succeeded. *)
Definition dials (k : Call) : bool :=
  match k with
  | DoConnect (inl _) => true
  | _ => false
  end.

End client.

(** * Properties *)

(** ** Rendering of error messages *)

Lemma append_empty_r (s : string) : s ++ "" = s.
Proof.
  induction s as [|c s IH]; [done|].
  change (String c (s ++ "") = String c s). by f_equal.
Qed.

(** Renders a format that ends in its only [%s]. *)
Ltac render_message :=
  unfold Error; cbn; rewrite ?append_empty_r; reflexivity.

(** ** Currencies *)

Section ParseCurrency_facts.
Import models.

Lemma ParseCurrency_range_hit entries c name :
  NoDup entries.*2 → (c, name) ∈ entries →
  ParseCurrency_range entries name = (c, None).
Proof.
  induction entries as [|[c' name'] rest IH]; simpl; intros Hnd Hin.
  - by apply elem_of_nil in Hin.
  - apply NoDup_cons in Hnd as [Hfresh Hnd].
    destruct (String.eqb_spec name' name) as [->|Hne].
    + apply elem_of_cons in Hin as [Heq|Hin]; [congruence|].
      exfalso. apply Hfresh. apply list_elem_of_fmap.
      by exists (c, name).
    + apply elem_of_cons in Hin as [Heq|Hin]; [congruence|].
      by apply IH.
Qed.

Lemma ParseCurrency_range_miss entries s :
  s ∉ entries.*2 →
  ParseCurrency_range entries s = (0, Some (unknownCurrency s)).
Proof.
  induction entries as [|[c' name'] rest IH]; simpl; intros Hnot; [done|].
  apply not_elem_of_cons in Hnot as [Hne Hnot].
  destruct (String.eqb_spec name' s) as [->|_]; [done|].
  by apply IH.
Qed.

Lemma ParseCurrency_range_found entries s c :
  ParseCurrency_range entries s = (c, None) → (c, s) ∈ entries.
Proof.
  induction entries as [|[c' name'] rest IH]; simpl; [done|].
  destruct (String.eqb_spec name' s) as [->|_].
  - intros [= ->]. apply elem_of_cons. by left.
  - intros H. apply elem_of_cons. right. by apply IH.
Qed.

Lemma currencyNames_entries :
  map_to_list currencyNames ≡ₚ declaredEntries.
Proof.
  unfold currencyNames. apply map_to_list_to_map.
  apply (bool_decide_unpack _). vm_compute. reflexivity.
Qed.

Lemma declaredEntries_names_NoDup : NoDup declaredEntries.*2.
Proof. apply (bool_decide_unpack _). vm_compute. reflexivity. Qed.

Lemma elem_of_declaredEntries c :
  c ∈ currencies → (c, Currency_String c) ∈ declaredEntries.
Proof.
  unfold currencies. rewrite !elem_of_cons, elem_of_nil.
  intros [->|[->|[->|[->|[->|[->|[->|[]]]]]]]];
    apply (bool_decide_unpack _); vm_compute; reflexivity.
Qed.

End ParseCurrency_facts.

(** C5, as the code has it. [Currency] is an [int] with seven declared
    constants: the constants are seven distinct values, the keys of
    [currencyNames] are exactly these constants, and whatever order the
    [range] loop of [ParseCurrency] visits the entries in: parsing the
    [String()] of a declared constant returns that constant and no
    error; parsing any string that is not one of the seven names returns
    an error (whose message quotes the string); and a successful parse
    only ever returns a declared constant. *)
Theorem C5_currency_string_roundtrip
  (order : list (models.Currency * string)) :
  order ≡ₚ map_to_list models.currencyNames →
  NoDup models.currencies ∧ length models.currencies = 7%nat ∧
  (∀ c, c ∈ dom models.currencyNames ↔ c ∈ models.currencies) ∧
  (∀ c, c ∈ models.currencies →
        models.ParseCurrency_range order (models.Currency_String c) = (c, None)) ∧
  (∀ s, s ∉ ["USD"; "EUR"; "GBP"; "JPY"; "CHF"; "AUD"; "CAD"] →
        ∃ e, models.ParseCurrency_range order s = (0, Some e) ∧
             Error e = Some ("unknown currency: " ++ s)) ∧
  (∀ s c, models.ParseCurrency_range order s = (c, None) →
          c ∈ models.currencies ∧ models.Currency_String c = s).
Proof.
  intros Hperm.
  assert (Hdecl : order ≡ₚ models.declaredEntries)
    by (rewrite Hperm; apply currencyNames_entries).
  assert (Hnd : NoDup order.*2)
    by (rewrite Hdecl; apply declaredEntries_names_NoDup).
  split; [|split; [|split; [|split; [|split]]]].
  - apply (bool_decide_unpack _). vm_compute. reflexivity.
  - reflexivity.
  - intros c. rewrite elem_of_dom. unfold is_Some.
    setoid_rewrite <- elem_of_map_to_list.
    setoid_rewrite currencyNames_entries.
    unfold models.declaredEntries, models.currencies. split.
    + intros [x Hx]. rewrite !elem_of_cons, elem_of_nil in Hx.
      destruct Hx as [[= -> _]|[[= -> _]|[[= -> _]|[[= -> _]|[[= -> _]|
                     [[= -> _]|[[= -> _]|[]]]]]]]];
        apply (bool_decide_unpack _); vm_compute; reflexivity.
    + intros H. exists (models.Currency_String c).
      by apply elem_of_declaredEntries.
  - intros c Hc. apply ParseCurrency_range_hit; [done|].
    rewrite Hdecl. by apply elem_of_declaredEntries.
  - intros s Hs. exists (models.unknownCurrency s). split; [|render_message].
    apply ParseCurrency_range_miss. by rewrite Hdecl.
  - intros s c Hparse. apply ParseCurrency_range_found in Hparse.
    rewrite Hdecl in Hparse. unfold models.declaredEntries in Hparse.
    rewrite !elem_of_cons, elem_of_nil in Hparse.
    destruct Hparse as [[= -> ->]|[[= -> ->]|[[= -> ->]|[[= -> ->]|[[= -> ->]|
                       [[= -> ->]|[[= -> ->]|[]]]]]]]];
      (split; [|reflexivity]);
      apply (bool_decide_unpack _); vm_compute; reflexivity.
Qed.

(** An instance of C5: the loop visiting the entries from CAD down to
    USD parses "EUR" to [EUR]. *)
Lemma C5_currency_string_roundtrip_witness :
  models.ParseCurrency_range
    [(models.CAD, "CAD"); (models.AUD, "AUD"); (models.CHF, "CHF");
     (models.JPY, "JPY"); (models.GBP, "GBP"); (models.EUR, "EUR");
     (models.USD, "USD")]
    (models.Currency_String models.EUR) = (models.EUR, None).
Proof.
  refine (proj1 (proj2 (proj2 (proj2 (C5_currency_string_roundtrip _ _))))
            models.EUR _).
  - rewrite currencyNames_entries.
    exact (reverse_Permutation models.declaredEntries).
  - apply (bool_decide_unpack _). vm_compute. reflexivity.
Defined.

(** C5 fails as stated: the type is not a closed enumeration of the
    seven constants. [Currency] is an [int], and 7 is a value of the
    type that is none of them. *)
Lemma C5_Currency_is_not_closed :
  ¬ ((∀ c : models.Currency, c ∈ models.currencies) ∧
     (∀ c : models.Currency,
        c ∈ models.currencies →
        models.ParseCurrency (models.Currency_String c) = (c, None)) ∧
     (∀ s : string,
        s ∉ ["USD"; "EUR"; "GBP"; "JPY"; "CHF"; "AUD"; "CAD"] →
        ∃ e, models.ParseCurrency s = (0, Some e))).
Proof.
  intros [Hclosed _]. specialize (Hclosed 7).
  revert Hclosed. apply (bool_decide_unpack _). vm_compute. reflexivity.
Qed.

(** ** The contract data model *)

Lemma toCurrency_ofCurrency (c : core.Currency) :
  toCurrency (ofCurrency c) = Some c.
Proof. by destruct c. Qed.

Lemma ofCurrency_toCurrency (z : models.Currency) (c : core.Currency) :
  toCurrency z = Some c → ofCurrency c = z.
Proof.
  unfold toCurrency.
  repeat match goal with
    | |- context [Z.eqb z ?k] =>
        destruct (Z.eqb_spec z k) as [->|_]; [by intros [= <-]|]
    end.
  discriminate.
Qed.

Lemma toOptionKind_ofOptionKind (k : core.OptionKind) :
  toOptionKind (ofOptionKind k) = Some k.
Proof. by destruct k. Qed.

Lemma ofOptionKind_toOptionKind (z : models.OptionType) (k : core.OptionKind) :
  toOptionKind z = Some k → ofOptionKind k = z.
Proof.
  unfold toOptionKind.
  repeat match goal with
    | |- context [Z.eqb z ?k] =>
        destruct (Z.eqb_spec z k) as [->|_]; [by intros [= <-]|]
    end.
  discriminate.
Qed.

(** No Go contract stands for a tree with a [When] node. *)
Lemma toCanonical_whenFree (g : models.Contract) (t : core.Contract) :
  toCanonical g = Some t → whenFree t = true.
Proof.
  revert t. induction g; intros t Ht; simpl in Ht; simplify_option_eq;
    simpl; auto.
  rewrite (IHg1 _ eq_refl), (IHg2 _ eq_refl). done.
Qed.

(** The builders give a Go value for every tree without [When], and the
    value stands for that same tree. *)
Lemma toCanonical_ofCanonical (t : core.Contract) :
  whenFree t = true →
  ∃ g, ofCanonical t = Some g ∧ toCanonical g = Some t.
Proof.
  induction t; simpl; intros Hfree; try discriminate.
  - by exists models.Zero.
  - eexists; split; [done|]. simpl. by rewrite !toCurrency_ofCurrency.
  - eexists; split; [done|]. simpl. by rewrite !toCurrency_ofCurrency.
  - eexists; split; [done|]. simpl.
    by rewrite toOptionKind_ofOptionKind, !toCurrency_ofCurrency.
  - eexists; split; [done|]. simpl. by rewrite !toCurrency_ofCurrency.
  - destruct (IHt Hfree) as (g & -> & Hg). eexists; split; [done|].
    simpl. by rewrite Hg.
  - apply andb_true_iff in Hfree as [H1 H2].
    destruct (IHt1 H1) as (g1 & -> & Hg1).
    destruct (IHt2 H2) as (g2 & -> & Hg2).
    eexists; split; [done|]. simpl. by rewrite Hg1, Hg2.
Qed.

(** The tree a Go value stands for determines the value: nothing is lost. *)
Lemma ofCanonical_toCanonical (g : models.Contract) (t : core.Contract) :
  toCanonical g = Some t → ofCanonical t = Some g.
Proof.
  revert t. induction g; intros t Ht; simpl in Ht; simplify_option_eq; simpl;
    repeat match goal with
      | H : toCurrency _ = Some _ |- _ => apply ofCurrency_toCurrency in H as ->
      | H : toOptionKind _ = Some _ |- _ =>
          apply ofOptionKind_toOptionKind in H as ->
      end;
    rewrite ?(IHg _ eq_refl), ?(IHg1 _ eq_refl), ?(IHg2 _ eq_refl); done.
Qed.

(** C1, as the code has it. The Go contract model has seven of the eight
    variants of the canonical shape: a canonical contract is the image of
    a Go [Contract] value exactly when it has no [When] node, and then the
    Go value is the one the builders produce for it, so the passage
    through the Go model loses nothing. *)
Theorem C1_contract_model_without_When (t : core.Contract) :
  (whenFree t = true ↔ ∃ g : models.Contract, toCanonical g = Some t) ∧
  (∀ g : models.Contract, toCanonical g = Some t → ofCanonical t = Some g).
Proof.
  split; [split|].
  - intros Hfree. destruct (toCanonical_ofCanonical t Hfree) as (g & _ & Hg).
    by exists g.
  - intros [g Hg]. by apply toCanonical_whenFree in Hg.
  - intros g. apply ofCanonical_toCanonical.
Qed.

(** C1 fails as stated: a [When] node carrying an Observable condition is
    a variant of the canonical shape that no Go [Contract] value
    represents. *)
Lemma C1_When_not_representable :
  ¬ (∀ t : core.Contract, ∃ g : models.Contract, toCanonical g = Some t).
Proof.
  intros Hall.
  destruct (Hall (core.When (core.ConstBool true) core.Zero)) as [g Hg].
  apply toCanonical_whenFree in Hg. discriminate.
Qed.

(** ** Valuation *)

Lemma nodes_positive (c : core.Contract) : 0 < core.nodes c.
Proof. induction c; simpl; lia. Qed.

Section Linearity.

Variables (ln Phi : float → float)
  (yearFraction : core.Date → core.Date → float)
  (resolveCurve : core.Curve → core.Date → core.Date → core.Result float)
  (resolveSurface : core.Surface → float → core.Date → core.Result float)
  (spot : core.MarketModel → core.Currency → core.Currency → core.Result float)
  (nodeLimit : Z) (mm : core.MarketModel) (pp : core.PricingParams).

Local Abbreviation price :=
  (core.price ln Phi yearFraction resolveCurve resolveSurface spot nodeLimit
     mm pp).

Local Abbreviation reduce :=
  (core.reduce ln Phi yearFraction resolveCurve resolveSurface spot mm pp).

(** A price is the reduction of a tree within the limit under
    Black-Scholes. *)
Lemma price_Ok (c : core.Contract) (p : float) :
  price c = core.Ok p ↔
  (core.nodes c ≤ nodeLimit)%Z ∧ core.model pp = core.BlackScholes ∧
  reduce c = core.Ok p.
Proof.
  unfold core.price.
  destruct (Z.ltb_spec nodeLimit (core.nodes c)) as [Hbig|Hfit].
  - split; [done|]. intros (Hle & _). lia.
  - destruct (core.model pp); split; try done; intros (_ & Hm & Hr); done.
Qed.

(** No price is infinite or NaN. *)
Lemma reduce_finite (c : core.Contract) (p : float) :
  reduce c = core.Ok p → PrimFloat.is_finite p = true.
Proof.
  assert (Hchecked : ∀ x q, core.checked x = core.Ok q →
                            PrimFloat.is_finite q = true).
  { unfold core.checked. intros x q.
    destruct (PrimFloat.is_finite x) eqn:Hx; [|done]. by intros [= <-]. }
  revert p. induction c; intros p; simpl; unfold mbind, core.Result_bind;
    repeat (case_match; try done);
    first [ apply Hchecked | by intros [= <-] | by auto ].
Qed.


(** What a defined composite price says of its parts: they are priced,
    and the composite is their sum, or the multiple. *)
Lemma price_composite_inv (a b : core.Contract) (n p : float) :
  (price (core.Combine a b) = core.Ok p →
   ∃ pa pb, price a = core.Ok pa ∧ price b = core.Ok pb ∧
            p = PrimFloat.add pa pb) ∧
  (price (core.Scale n a) = core.Ok p →
   ∃ pa, price a = core.Ok pa ∧ p = PrimFloat.mul n pa).
Proof.
  pose proof (nodes_positive a) as Hpa. pose proof (nodes_positive b) as Hpb.
  split; intros (Hfit & Hm & Hr)%price_Ok; simpl in Hfit, Hr.
  - destruct (reduce a) as [pa|] eqn:Ha; simpl in Hr; [|done].
    destruct (reduce b) as [pb|] eqn:Hb; simpl in Hr; [|done].
    exists pa, pb. unfold core.checked in Hr.
    destruct (PrimFloat.is_finite _); [|done].
    repeat split; [apply price_Ok|apply price_Ok|congruence];
      (split; [lia|done]).
  - destruct (reduce a) as [pa|] eqn:Ha; simpl in Hr; [|done].
    exists pa. unfold core.checked in Hr.
    destruct (PrimFloat.is_finite _); [|done].
    split; [apply price_Ok|congruence]. split; [lia|done].
Qed.

End Linearity.



(** The other way the composite fails: the parts are priced and their
    sum, or the multiple, overflows float64; the guard turns it into
    [NumericDomainError]. *)
Lemma price_rejects_overflow :
  core.flatPrice 1e308 core.defaultNodeLimit (core.Spot core.USD core.EUR)
  = core.Ok 1e308%float ∧
  core.flatPrice 1e308 core.defaultNodeLimit
    (core.Combine (core.Spot core.USD core.EUR) (core.Spot core.USD core.EUR))
  = core.Fail core.NumericDomainError ∧
  core.flatPrice 1e308 core.defaultNodeLimit
    (core.Scale 1e308 (core.Spot core.USD core.EUR))
  = core.Fail core.NumericDomainError.
Proof. repeat split; vm_compute; reflexivity. Qed.

(** ** float64 comparisons *)

Lemma SFcompare_antisym (x y : spec_float) :
  SFcompare y x = CompOpp <$> SFcompare x y.
Proof.
  destruct x as [sx|sx| |sx mx ex], y as [sy|sy| |sy my ey]; simpl;
    try done; try (by destruct sx); try (by destruct sy);
    try (by destruct sx, sy).
  destruct sx, sy; simpl; try done.
  - rewrite (Z.compare_antisym ey ex).
    destruct (ey ?= ex)%Z; simpl; try done.
    do 2 f_equal. exact (eq_sym (Pos.compare_cont_antisym mx my Eq)).
  - rewrite (Z.compare_antisym ey ex).
    destruct (ey ?= ex)%Z; simpl; try done.
    f_equal. exact (eq_sym (Pos.compare_cont_antisym mx my Eq)).
Qed.

(** [x <= y] excludes [y < x]. *)
Lemma float_leb_not_gt (x y : float) :
  PrimFloat.leb x y = true → PrimFloat.ltb y x = false.
Proof.
  rewrite leb_spec, ltb_spec. unfold SFleb, SFltb.
  rewrite (SFcompare_antisym (Prim2SF x)).
  by destruct (SFcompare (Prim2SF x) (Prim2SF y)) as [[]|].
Qed.

(** A number that is not [<= 0] is [> 0]; NaN is neither. *)
Lemma float_not_leb_0_pos (r : float) :
  PrimFloat.leb r 0 = false → PrimFloat.is_nan r = false →
  PrimFloat.ltb 0 r = true.
Proof.
  unfold PrimFloat.is_nan.
  rewrite leb_spec, ltb_spec, FloatAxioms.eqb_spec.
  replace (Prim2SF 0%float) with (S754_zero false) by reflexivity.
  destruct (Prim2SF r) as [s|s| |s mr er]; try destruct s; cbn; congruence.
Qed.

(** ** The heap of maps *)

Section Heap_facts.
Import market.
Context {V : Type}.
Implicit Types (store : gmap loc (gmap string V)) (table : gmap string V).

Lemma alloc_fresh store table : (alloc store table).1 ∉ dom store.
Proof. unfold alloc. simpl. apply is_fresh. Qed.

Lemma deref_insert store a table : deref (<[a := table]> store) (Some a) = table.
Proof. unfold deref. by rewrite lookup_insert_eq. Qed.

Lemma deref_insert_ne store a table r :
  r ≠ Some a → deref (<[a := table]> store) r = deref store r.
Proof.
  destruct r as [b|]; [|done]. intros Hne. unfold deref.
  rewrite lookup_insert_ne; [done|congruence].
Qed.

Lemma deref_alloc store table :
  deref (alloc store table).2 (Some (alloc store table).1) = table.
Proof. unfold alloc. simpl. apply deref_insert. Qed.

Lemma deref_alloc_valid store table r :
  validRef store r → deref (alloc store table).2 r = deref store r.
Proof.
  intros Hr. unfold alloc. simpl. apply deref_insert_ne.
  intros ->. by apply (is_fresh (dom store)).
Qed.

Lemma validRef_insert store a table r :
  validRef store r → validRef (<[a := table]> store) r.
Proof.
  destruct r; unfold validRef; [|done]. rewrite dom_insert. set_solver.
Qed.

(** The same, with [alloc] unfolded. *)
Lemma deref_fresh_valid store table r :
  validRef store r →
  deref (<[fresh (dom store) := table]> store) r = deref store r.
Proof. apply deref_alloc_valid. Qed.

Lemma validRef_alloc store table r :
  validRef store r → validRef (alloc store table).2 r.
Proof. apply validRef_insert. Qed.

Lemma validRef_alloc_new store table :
  validRef (alloc store table).2 (Some (alloc store table).1).
Proof. unfold alloc, validRef. simpl. rewrite dom_insert. set_solver. Qed.

(** Copying entry by entry into an empty table rebuilds the table. *)
Lemma rangeCopy_id table : rangeCopy table = table.
Proof.
  unfold rangeCopy.
  apply (map_fold_weak_ind (fun dst src => dst = src)); [done|].
  by intros k v src dst _ ->.
Qed.

End Heap_facts.

(** ** The market store *)

(** C10. A Manager freshly created by [NewManager], with or without a
    logger and whatever the heap already holds, is empty: the three
    lookups fail for every key, returning the zero value and an error,
    and [Stats] reports zero for the three counts. *)
Theorem C10_NewManager_is_empty
  (logger : option market.Logger) (h : market.Heap) (key : string) :
  (∃ e, market.GetSpotRate key (market.NewManager logger h)
        = ((market.SpotRate.zero, Some e), market.NewManager logger h)) ∧
  (∃ e, market.GetDiscountCurve key (market.NewManager logger h)
        = ((market.DiscountCurve.zero, Some e), market.NewManager logger h)) ∧
  (∃ e, market.GetVolSurface key (market.NewManager logger h)
        = ((market.VolSurface.zero, Some e), market.NewManager logger h)) ∧
  (market.Stats (market.NewManager logger h)).1
  = <["spot_rates" := 0]>
      (<["discount_curves" := 0]> (<["vol_surfaces" := 0]> ∅)) ∧
  market.stored (market.NewManager logger h) = (∅, ∅, ∅).
Proof.
  unfold market.NewManager, market.GetSpotRate, market.GetDiscountCurve,
    market.GetVolSurface, market.Stats, market.stored, market.len,
    market.len. simpl.
  rewrite !deref_insert, !lookup_empty, !map_size_empty.
  repeat split; eauto.
Qed.

(** C4. Each lookup returns the stored entry and no error exactly when
    the key is present in the Manager's map; otherwise it returns the
    zero value and an error whose message ends with the missing pair or
    currency. The lookup leaves the program state as it was. *)
Theorem C4_lookups_find_what_is_stored (w : market.World) (key : string) :
  ((market.GetSpotRate key w).2 = w ∧
   match (market.stored w).1.1 !! key with
   | Some spot => (market.GetSpotRate key w).1 = (spot, None)
   | None =>
       ∃ e, (market.GetSpotRate key w).1 = (market.SpotRate.zero, Some e) ∧
            Error e = Some ("spot rate not found for pair " ++ key)
   end) ∧
  ((market.GetDiscountCurve key w).2 = w ∧
   match (market.stored w).1.2 !! key with
   | Some curve => (market.GetDiscountCurve key w).1 = (curve, None)
   | None =>
       ∃ e, (market.GetDiscountCurve key w).1
            = (market.DiscountCurve.zero, Some e) ∧
            Error e = Some ("discount curve not found for currency " ++ key)
   end) ∧
  ((market.GetVolSurface key w).2 = w ∧
   match (market.stored w).2 !! key with
   | Some surface => (market.GetVolSurface key w).1 = (surface, None)
   | None =>
       ∃ e, (market.GetVolSurface key w).1 = (market.VolSurface.zero, Some e) ∧
            Error e = Some ("vol surface not found for pair " ++ key)
   end).
Proof.
  unfold market.GetSpotRate, market.GetDiscountCurve, market.GetVolSurface,
    market.stored. simpl.
  repeat split.
  - by destruct (_ !! key).
  - destruct (_ !! key); [done|]. eexists. split; [done|render_message].
  - by destruct (_ !! key).
  - destruct (_ !! key); [done|]. eexists. split; [done|render_message].
  - by destruct (_ !! key).
  - destruct (_ !! key); [done|]. eexists. split; [done|render_message].
Qed.

(** C8. An update that returns an error has changed nothing: the heap of
    maps, the Manager's three map fields and its log are as before the
    call. The error is returned exactly under the guard of the method:
    [rate <= 0], [flatRate < 0], [flatVol < 0 || flatVol > 1]. *)
Theorem C8_rejected_update_changes_nothing
  (w : market.World) (key compounding : string) (x : float)
  (now : market.Time) :
  (((∃ e, (market.UpdateSpotRate key x now w).1 = market.Returns (Some e))
    ↔ PrimFloat.leb x 0 = true) ∧
   (PrimFloat.leb x 0 = true → (market.UpdateSpotRate key x now w).2 = w)) ∧
  (((∃ e, (market.UpdateDiscountCurve key x compounding now w).1
          = market.Returns (Some e))
    ↔ PrimFloat.ltb x 0 = true) ∧
   (PrimFloat.ltb x 0 = true →
    (market.UpdateDiscountCurve key x compounding now w).2 = w)) ∧
  (((∃ e, (market.UpdateVolSurface key x now w).1 = market.Returns (Some e))
    ↔ PrimFloat.ltb x 0 || PrimFloat.ltb 1 x = true) ∧
   (PrimFloat.ltb x 0 || PrimFloat.ltb 1 x = true →
    (market.UpdateVolSurface key x now w).2 = w)).
Proof.
  unfold market.UpdateSpotRate, market.UpdateDiscountCurve,
    market.UpdateVolSurface.
  repeat split.
  - destruct (PrimFloat.leb x 0); [done|].
    destruct (market.spotRates _); simpl; intros [e He]; discriminate.
  - intros ->. simpl. eauto.
  - by intros ->.
  - destruct (PrimFloat.ltb x 0); [done|].
    destruct (market.discountCurves _); simpl; intros [e He]; discriminate.
  - intros ->. simpl. eauto.
  - by intros ->.
  - destruct (PrimFloat.ltb x 0 || PrimFloat.ltb 1 x); [done|].
    destruct (market.volSurfaces _); simpl; intros [e He]; discriminate.
  - intros ->. simpl. eauto.
  - by intros ->.
Qed.

(** [LoadSnapshot] installs the snapshot's map values as they are. *)
Lemma LoadSnapshot_stored (s : market.MarketSnapshot) (w : market.World) :
  market.stored (market.LoadSnapshot s w) = market.contents s (market.heap w) ∧
  market.heap (market.LoadSnapshot s w) = market.heap w.
Proof. done. Qed.

(** A snapshot with a negative rate, loaded and read back. *)
Lemma negative_rate_is_loaded :
  market.GetSpotRate "EUR/USD"
    (market.LoadSnapshot market.clientSnapshot
       (market.NewManager None market.clientHeap))
  = ((market.negativeQuote, None),
     market.LoadSnapshot market.clientSnapshot
       (market.NewManager None market.clientHeap)).
Proof. vm_compute. reflexivity. Qed.

(** C6 fails as stated: a volatility of 1.5 is at least 0, yet
    [UpdateVolSurface] returns an error for it, and 1.5 is not below 0. *)
Lemma C6_volatility_above_one_is_rejected :
  ¬ (∀ (w : market.World) (key : string) (v : float) (now : market.Time),
       (PrimFloat.leb 0 v = true →
        (market.UpdateVolSurface key v now w).1 = market.Returns None) ∧
       (∀ e, (market.UpdateVolSurface key v now w).1 = market.Returns (Some e) →
             PrimFloat.ltb v 0 = true)).
Proof.
  intros Hclaim.
  destruct (Hclaim (market.NewManager None market.emptyHeap) "EUR/USD"
              1.5%float 0) as [Hok _].
  specialize (Hok eq_refl). vm_compute in Hok. discriminate.
Qed.

(** C6, as the code has it. On a Manager whose vol-surface map is not
    nil, [UpdateVolSurface] with a volatility between 0 and 1 (bounds
    included) returns no error and the pair then reads back with that
    flat volatility; and whenever the method returns an error the
    volatility is below 0 or above 1. *)
Theorem C6_UpdateVolSurface_accepts_0_to_1
  (w : market.World) (key : string) (v : float) (now : market.Time) :
  market.volSurfaces (market.m w) ≠ None →
  (PrimFloat.leb 0 v = true → PrimFloat.leb v 1 = true →
   (market.UpdateVolSurface key v now w).1 = market.Returns None ∧
   (market.GetVolSurface key (market.UpdateVolSurface key v now w).2).1
   = (market.VolSurface.mk key v now, None)) ∧
  (∀ e, (market.UpdateVolSurface key v now w).1 = market.Returns (Some e) →
        PrimFloat.ltb v 0 = true ∨ PrimFloat.ltb 1 v = true).
Proof.
  intros Hnonnil. unfold market.UpdateVolSurface. split.
  - intros H0 H1.
    rewrite (float_leb_not_gt _ _ H0), (float_leb_not_gt _ _ H1). simpl.
    destruct (market.volSurfaces (market.m w)) as [a|] eqn:Hvol; [|done].
    split; [done|]. unfold market.GetVolSurface. simpl.
    rewrite !deref_insert, lookup_insert_eq. done.
  - intros e.
    destruct (PrimFloat.ltb v 0) eqn:H0; [by left|].
    destruct (PrimFloat.ltb 1 v) eqn:H1; [by right|]. simpl.
    destruct (market.volSurfaces (market.m w)); discriminate.
Qed.

(** An instance of C6: a flat volatility of 12% on a fresh Manager. *)
Lemma C6_UpdateVolSurface_accepts_0_to_1_witness :
  (market.UpdateVolSurface "EUR/USD" 0.12 7
     (market.NewManager None market.emptyHeap)).1 = market.Returns None ∧
  (market.GetVolSurface "EUR/USD"
     (market.UpdateVolSurface "EUR/USD" 0.12 7
        (market.NewManager None market.emptyHeap)).2).1
  = (market.VolSurface.mk "EUR/USD" 0.12 7, None).
Proof.
  apply (C6_UpdateVolSurface_accepts_0_to_1
           (market.NewManager None market.emptyHeap) "EUR/USD" 0.12%float 7).
  - discriminate.
  - reflexivity.
  - reflexivity.
Defined.

(** C9. [LoadSnapshot] replaces the whole store and validates nothing.
    After the call the Manager stores exactly what the snapshot's maps
    hold (the heap itself is untouched), so each lookup succeeds exactly
    on the keys of the snapshot's map and returns the snapshot's entry;
    an entry stored before the call whose key the snapshot lacks is no
    longer found; and a snapshot carrying a rate that [UpdateSpotRate]
    rejects is loaded and read back all the same. *)
Theorem C9_LoadSnapshot_replaces_the_store
  (s : market.MarketSnapshot) (w : market.World) (key : string) :
  market.stored (market.LoadSnapshot s w) = market.contents s (market.heap w) ∧
  (market.GetSpotRate key (market.LoadSnapshot s w)).1
  = match (market.contents s (market.heap w)).1.1 !! key with
    | Some spot => (spot, None)
    | None =>
        (market.SpotRate.zero,
         Some (Errorf "spot rate not found for pair %s" [ArgString key]))
    end ∧
  (market.GetDiscountCurve key (market.LoadSnapshot s w)).1
  = match (market.contents s (market.heap w)).1.2 !! key with
    | Some curve => (curve, None)
    | None =>
        (market.DiscountCurve.zero,
         Some (Errorf "discount curve not found for currency %s"
                      [ArgString key]))
    end ∧
  (market.GetVolSurface key (market.LoadSnapshot s w)).1
  = match (market.contents s (market.heap w)).2 !! key with
    | Some surface => (surface, None)
    | None =>
        (market.VolSurface.zero,
         Some (Errorf "vol surface not found for pair %s" [ArgString key]))
    end ∧
  (∀ spot, (market.stored w).1.1 !! key = Some spot →
           (market.contents s (market.heap w)).1.1 !! key = None →
           ∃ e, (market.GetSpotRate key (market.LoadSnapshot s w)).1
                = (market.SpotRate.zero, Some e)) ∧
  (∃ (s0 : market.MarketSnapshot) (w0 : market.World) (spot : market.SpotRate.t),
     (market.GetSpotRate "EUR/USD" (market.LoadSnapshot s0 w0)).1
     = (spot, None) ∧
     PrimFloat.leb (market.SpotRate.Rate spot) 0 = true ∧
     ∃ e, (market.UpdateSpotRate "EUR/USD" (market.SpotRate.Rate spot) 0 w0).1
          = market.Returns (Some e)).
Proof.
  split; [done|].
  unfold market.GetSpotRate, market.GetDiscountCurve, market.GetVolSurface,
    market.contents. simpl.
  split; [by destruct (_ !! key)|].
  split; [by destruct (_ !! key)|].
  split; [by destruct (_ !! key)|].
  split.
  - intros spot _ ->. eauto.
  - exists market.clientSnapshot, (market.NewManager None market.clientHeap),
      market.negativeQuote.
    split; [|split; [reflexivity|]].
    + vm_compute. reflexivity.
    + eexists. vm_compute. reflexivity.
Qed.

(** *** Positivity of the stored spot rates *)

Lemma spotsPositive_NewManager logger h :
  market.spotsPositive (market.NewManager logger h).
Proof.
  unfold market.spotsPositive, market.NewManager. simpl. split.
  - apply validRef_alloc_new.
  - rewrite deref_insert. intros key spot Hkey.
    by rewrite lookup_empty in Hkey.
Qed.

Lemma spotsPositive_exec o w :
  market.admissible o w → market.spotsPositive w →
  market.spotsPositive (market.exec o w).
Proof.
  intros Hadm Hw. pose proof Hw as [Hvalid Hpos].
  destruct o as [key rate now|ccy rate comp now|key vol now|s|now|t|t|t];
    simpl in *.
  - unfold market.UpdateSpotRate.
    destruct (PrimFloat.leb rate 0) eqn:Hguard; [exact Hw|].
    destruct (market.spotRates (market.m w)) as [a|] eqn:Hspots; [|exact Hw].
    split; simpl.
    + by apply validRef_insert.
    + rewrite deref_insert. intros k spot.
      destruct (decide (key = k)) as [->|Hne].
      * rewrite lookup_insert_eq. intros [= <-]. simpl.
        by apply float_not_leb_0_pos.
      * rewrite lookup_insert_ne by done. apply Hpos.
  - unfold market.UpdateDiscountCurve.
    destruct (PrimFloat.ltb rate 0); [exact Hw|].
    destruct (market.discountCurves (market.m w)); exact Hw.
  - unfold market.UpdateVolSurface.
    destruct (PrimFloat.ltb vol 0 || PrimFloat.ltb 1 vol); [exact Hw|].
    destruct (market.volSurfaces (market.m w)); exact Hw.
  - exact Hadm.
  - unfold market.GetSnapshot, market.spotsPositive. simpl. split.
    + by apply validRef_insert.
    + by rewrite deref_fresh_valid.
  - split; simpl.
    + by apply validRef_insert.
    + by rewrite deref_fresh_valid.
  - exact Hw.
  - exact Hw.
Qed.

Lemma spotsPositive_run ops w :
  market.admissibleRun ops w → market.spotsPositive w →
  market.spotsPositive (market.run ops w).
Proof.
  revert w. induction ops as [|o ops IH]; intros w; simpl; [done|].
  intros [Ho Hrest] Hw. apply IH; [done|]. by apply spotsPositive_exec.
Qed.

(** C2, as the code has it. Start from [NewManager] and make any
    sequence of calls in which every rate passed to [UpdateSpotRate] is
    a number and every snapshot passed to [LoadSnapshot] holds, when it
    is loaded, strictly positive spot rates: whenever [GetSpotRate] then
    succeeds, the returned rate is strictly positive. *)
Theorem C2_spot_rates_stay_positive
  (logger : option market.Logger) (h : market.Heap) (ops : list market.Op)
  (key : string) (spot : market.SpotRate.t) :
  market.admissibleRun ops (market.NewManager logger h) →
  (market.GetSpotRate key (market.run ops (market.NewManager logger h))).1
  = (spot, None) →
  PrimFloat.ltb 0 (market.SpotRate.Rate spot) = true.
Proof.
  intros Hadm Hget.
  destruct (spotsPositive_run ops _ Hadm (spotsPositive_NewManager logger h))
    as [_ Hpos].
  apply (Hpos key). unfold market.GetSpotRate in Hget.
  destruct (_ !! key) as [spot'|]; simpl in Hget; [|discriminate].
  congruence.
Qed.

(** C2 fails as stated: [LoadSnapshot] is a public operation and it
    stores a snapshot's rates unchecked, so a state reached from
    [NewManager] by one [LoadSnapshot] call returns a rate of -1. *)
Lemma C2_LoadSnapshot_breaks_positivity :
  ¬ (∀ (logger : option market.Logger) (h : market.Heap)
       (ops : list market.Op) (key : string) (spot : market.SpotRate.t),
       forallb market.isPublicUpdate ops = true →
       (market.GetSpotRate key (market.run ops (market.NewManager logger h))).1
       = (spot, None) →
       PrimFloat.ltb 0 (market.SpotRate.Rate spot) = true).
Proof.
  intros Hclaim.
  specialize (Hclaim None market.clientHeap
                [market.CallLoadSnapshot market.clientSnapshot]
                "EUR/USD" market.negativeQuote eq_refl).
  simpl in Hclaim. rewrite negative_rate_is_loaded in Hclaim.
  specialize (Hclaim eq_refl). vm_compute in Hclaim. discriminate.
Qed.

(** An instance of C2: after the client session the quote for GBP/USD is
    found and positive. *)
Lemma C2_spot_rates_stay_positive_witness :
  PrimFloat.ltb 0
    (market.SpotRate.Rate
       (market.GetSpotRate "GBP/USD"
          (market.run market.session
             (market.NewManager None market.emptyHeap))).1.1) = true.
Proof.
  apply (C2_spot_rates_stay_positive None market.emptyHeap market.session
           "GBP/USD").
  - simpl. split; [exact I|]. split; [|split; [reflexivity|exact I]].
    split.
    + unfold market.validRef. apply (bool_decide_unpack _).
      vm_compute. reflexivity.
    + replace (market.deref _ _) with
        (<["GBP/USD" := market.sterling]> (∅ : gmap string market.SpotRate.t))
        by (vm_compute; reflexivity).
      intros key spot Hkey.
      apply lookup_insert_Some in Hkey as [[_ <-]|[_ Hkey]]; [reflexivity|].
      by rewrite lookup_empty in Hkey.
  - vm_compute. reflexivity.
Defined.

(** *** Snapshots *)

(** C3 at its failing input. The snapshot returned by [GetSnapshot]
    holds EUR/USD at 1.10. Two public calls later, [LoadSnapshot] of
    that snapshot and [UpdateSpotRate] of EUR/USD to 2, the snapshot's
    own spot-rate map holds EUR/USD at 2: [LoadSnapshot] stored the
    snapshot's map values in the Manager without copying them. *)
Theorem C3_LoadSnapshot_shares_the_snapshot_maps :
  forallb market.isPublicUpdate market.reload = true ∧
  market.SpotRate.Rate <$>
    (market.contents market.taken.1 (market.heap market.taken.2)).1.1
      !! "EUR/USD" = Some 1.10%float ∧
  market.SpotRate.Rate <$>
    (market.contents market.taken.1
       (market.heap (market.run market.reload market.taken.2))).1.1
      !! "EUR/USD" = Some 2%float ∧
  market.spotRates (market.m (market.run market.reload market.taken.2))
  = market.SpotRates market.taken.1.
Proof. repeat split; vm_compute; reflexivity. Qed.

(** What holds of C3: the snapshot is a copy, and it stays as it is
    until one of its own maps is handed back to [LoadSnapshot]. *)

Lemma fresh_not_valid {V : Type} (store : gmap market.loc (gmap string V))
  (r : market.mapref) :
  market.validRef store r → r ≠ Some (fresh (dom store)).
Proof. intros Hr ->. by apply (is_fresh (dom store)). Qed.

(** [GetSnapshot] returns maps holding what the Manager stores and
    leaves the Manager and what it stores as they were. *)
Lemma GetSnapshot_copies (now : market.Time) (w : market.World) :
  market.wellFormed w →
  market.contents (market.GetSnapshot now w).1
                  (market.heap (market.GetSnapshot now w).2)
  = market.stored w ∧
  market.stored (market.GetSnapshot now w).2 = market.stored w ∧
  market.m (market.GetSnapshot now w).2 = market.m w ∧
  market.apart (market.GetSnapshot now w).1 (market.GetSnapshot now w).2.
Proof.
  intros (Hs & Hc & Hv).
  unfold market.GetSnapshot, market.contents, market.stored, market.apart.
  simpl. rewrite !deref_insert, !rangeCopy_id, !deref_fresh_valid by done.
  repeat split; try done; try apply validRef_alloc_new;
    by apply fresh_not_valid.
Qed.

Lemma apart_exec (s : market.MarketSnapshot) (o : market.Op) (w : market.World) :
  market.apart s w → market.keepsApart s o →
  market.apart s (market.exec o w) ∧
  market.contents s (market.heap (market.exec o w))
  = market.contents s (market.heap w).
Proof.
  intros Hw Ho. pose proof Hw as ((Hs & Hc & Hv) & (Ns & Nc & Nv)).
  destruct o as [key rate now|ccy rate comp now|key vol now|s'|now|t|t|t];
    simpl in *.
  - unfold market.UpdateSpotRate.
    destruct (PrimFloat.leb rate 0); [done|].
    destruct (market.spotRates (market.m w)) as [a|] eqn:Hm; [|done].
    unfold market.apart, market.contents. simpl.
    rewrite deref_insert_ne by done.
    repeat split; try done. by apply validRef_insert.
  - unfold market.UpdateDiscountCurve.
    destruct (PrimFloat.ltb rate 0); [done|].
    destruct (market.discountCurves (market.m w)) as [a|] eqn:Hm; [|done].
    unfold market.apart, market.contents. simpl.
    rewrite deref_insert_ne by done.
    repeat split; try done. by apply validRef_insert.
  - unfold market.UpdateVolSurface.
    destruct (PrimFloat.ltb vol 0 || PrimFloat.ltb 1 vol); [done|].
    destruct (market.volSurfaces (market.m w)) as [a|] eqn:Hm; [|done].
    unfold market.apart, market.contents. simpl.
    rewrite deref_insert_ne by done.
    repeat split; try done. by apply validRef_insert.
  - destruct Ho as (? & ? & ?). done.
  - unfold market.GetSnapshot, market.apart, market.contents. simpl.
    rewrite !deref_fresh_valid by done.
    repeat split; try done; by apply validRef_insert.
  - unfold market.apart, market.contents. simpl.
    rewrite !deref_fresh_valid by done.
    repeat split; try done; by apply validRef_insert.
  - unfold market.apart, market.contents. simpl.
    rewrite !deref_fresh_valid by done.
    repeat split; try done; by apply validRef_insert.
  - unfold market.apart, market.contents. simpl.
    rewrite !deref_fresh_valid by done.
    repeat split; try done; by apply validRef_insert.
Qed.

(** A snapshot apart from the Manager keeps its contents through every
    sequence of calls that never loads one of its maps. *)
Lemma snapshot_unchanged_unless_reloaded
  (s : market.MarketSnapshot) (ops : list market.Op) (w : market.World) :
  market.apart s w → Forall (market.keepsApart s) ops →
  market.contents s (market.heap (market.run ops w))
  = market.contents s (market.heap w).
Proof.
  revert w. induction ops as [|o ops IH]; intros w Hw Hops; [done|].
  apply Forall_cons in Hops as [Ho Hops].
  destruct (apart_exec s o w Hw Ho) as [Hw' Heq].
  simpl. rewrite <- Heq. by apply IH.
Qed.

(** The guard [rate <= 0] lets NaN through: it is stored as the rate. *)
Lemma UpdateSpotRate_stores_NaN :
  (market.UpdateSpotRate "EUR/USD" nan 0
     (market.NewManager None market.emptyHeap)).1 = market.Returns None ∧
  market.SpotRate.Rate
    (market.GetSpotRate "EUR/USD"
       (market.UpdateSpotRate "EUR/USD" nan 0
          (market.NewManager None market.emptyHeap)).2).1.1 = nan.
Proof. split; vm_compute; reflexivity. Qed.

Lemma wellFormed_NewManager (logger : option market.Logger) (h : market.Heap) :
  market.wellFormed (market.NewManager logger h).
Proof.
  unfold market.wellFormed, market.NewManager. simpl.
  repeat split; apply validRef_alloc_new.
Qed.

(** * Further properties of the market store *)

(** ** More on float64 comparisons *)

Lemma SFeqb_refl_false (f : spec_float) : SFeqb f f = false → f = S754_nan.
Proof.
  unfold SFeqb. destruct f as [s|s| |s mf ef]; simpl; try done.
  - by destruct s.
  - rewrite Z.compare_refl, Pos.compare_cont_refl. by destruct s.
Qed.

Lemma is_nan_Prim2SF (x : float) :
  PrimFloat.is_nan x = true → Prim2SF x = S754_nan.
Proof.
  unfold PrimFloat.is_nan. rewrite FloatAxioms.eqb_spec.
  intros H. apply SFeqb_refl_false. by destruct (SFeqb _ _).
Qed.

Lemma not_nan_Prim2SF (x : float) :
  PrimFloat.is_nan x = false → Prim2SF x ≠ S754_nan.
Proof.
  unfold PrimFloat.is_nan. rewrite FloatAxioms.eqb_spec.
  intros H Hnan. by rewrite Hnan in H.
Qed.

(** Every comparison with NaN is false. *)
Lemma float_nan_compares_false (x y : float) :
  PrimFloat.is_nan x = true →
  PrimFloat.leb x y = false ∧ PrimFloat.ltb x y = false ∧
  PrimFloat.leb y x = false ∧ PrimFloat.ltb y x = false.
Proof.
  intros Hnan. apply is_nan_Prim2SF in Hnan.
  rewrite !leb_spec, !ltb_spec, Hnan. unfold SFleb, SFltb.
  by destruct (Prim2SF y).
Qed.

(** Two numbers are ordered one way or the other. *)
Lemma float_not_ltb_leb (x y : float) :
  PrimFloat.is_nan x = false → PrimFloat.is_nan y = false →
  PrimFloat.ltb y x = false → PrimFloat.leb x y = true.
Proof.
  intros Hx%not_nan_Prim2SF Hy%not_nan_Prim2SF.
  rewrite leb_spec, ltb_spec. unfold SFleb, SFltb.
  rewrite (SFcompare_antisym (Prim2SF x)).
  destruct (Prim2SF x) as [sx|sx| |sx mx ex], (Prim2SF y) as [sy|sy| |sy my ey];
    try done; simpl; try (by destruct sx); try (by destruct sy);
    try (by destruct sx, sy).
  destruct sx, sy; simpl; try done.
  - by destruct (ex ?= ey)%Z; simpl; try done;
      destruct (PosDef.Pos.compare_cont Eq mx my).
  - by destruct (ex ?= ey)%Z; simpl; try done;
      destruct (PosDef.Pos.compare_cont Eq mx my).
Qed.

(** ** Invariants along a sequence of calls *)

Lemma run_invariant (P : market.World → Prop) (C : market.Op → Prop) :
  (∀ o w, C o → P w → P (market.exec o w)) →
  ∀ ops w, Forall C ops → P w → P (market.run ops w).
Proof.
  intros Hstep ops. induction ops as [|o ops IH]; intros w Hops Hw; [done|].
  apply Forall_cons in Hops as [Ho Hops]. simpl. apply IH; [done|].
  by apply Hstep.
Qed.

Lemma wellFormed_exec (o : market.Op) (w : market.World) :
  market.noLoad o → market.wellFormed w → market.wellFormed (market.exec o w).
Proof.
  intros Ho Hw. pose proof Hw as (Hs & Hc & Hv).
  destruct o as [key rate now|ccy rate comp now|key vol now|s'|now|t|t|t];
    simpl in *; try done.
  - unfold market.UpdateSpotRate.
    destruct (PrimFloat.leb rate 0); [done|].
    destruct (market.spotRates (market.m w)) as [a|] eqn:Hm; [|done].
    unfold market.wellFormed. simpl.
    repeat split; try done. by apply validRef_insert.
  - unfold market.UpdateDiscountCurve.
    destruct (PrimFloat.ltb rate 0); [done|].
    destruct (market.discountCurves (market.m w)) as [a|] eqn:Hm; [|done].
    unfold market.wellFormed. simpl.
    repeat split; try done. by apply validRef_insert.
  - unfold market.UpdateVolSurface.
    destruct (PrimFloat.ltb vol 0 || PrimFloat.ltb 1 vol); [done|].
    destruct (market.volSurfaces (market.m w)) as [a|] eqn:Hm; [|done].
    unfold market.wellFormed. simpl.
    repeat split; try done. by apply validRef_insert.
  - unfold market.GetSnapshot, market.wellFormed. simpl.
    repeat split; by apply validRef_insert.
  - unfold market.wellFormed. simpl. repeat split; try done.
    by apply validRef_insert.
  - unfold market.wellFormed. simpl. repeat split; try done.
    by apply validRef_insert.
  - unfold market.wellFormed. simpl. repeat split; try done.
    by apply validRef_insert.
Qed.

(** What an update-free step does to what is stored: nothing. *)
Lemma stored_alloc_step (o : market.Op) (w : market.World) :
  market.wellFormed w →
  match o with
  | market.CallGetSnapshot _ | market.MakeSpotRates _
  | market.MakeDiscountCurves _ | market.MakeVolSurfaces _ =>
      market.stored (market.exec o w) = market.stored w
  | _ => True
  end.
Proof.
  intros (Hs & Hc & Hv). destruct o; try done;
    unfold market.stored, market.GetSnapshot; simpl;
    by rewrite ?deref_fresh_valid.
Qed.

(** ** Update, then look up *)

(** X1. An accepted spot rate is read back as stored: when [rate <= 0] is
    false and the spot-rate map is not nil, [UpdateSpotRate] returns no
    error and [GetSpotRate] of the pair then returns the pair, the rate
    and the time of the update. *)
Theorem UpdateSpotRate_then_GetSpotRate
  (w : market.World) (key : string) (rate : float) (now : market.Time) :
  PrimFloat.leb rate 0 = false →
  market.spotRates (market.m w) ≠ None →
  (market.UpdateSpotRate key rate now w).1 = market.Returns None ∧
  (market.GetSpotRate key (market.UpdateSpotRate key rate now w).2).1
  = (market.SpotRate.mk key rate now, None).
Proof.
  intros Hguard Hnonnil. unfold market.UpdateSpotRate. rewrite Hguard.
  destruct (market.spotRates (market.m w)) as [a|]; [|done].
  split; [done|]. unfold market.GetSpotRate. simpl.
  by rewrite !deref_insert, lookup_insert_eq.
Qed.

(** An instance of X1. *)
Lemma UpdateSpotRate_then_GetSpotRate_witness :
  (market.UpdateSpotRate "EUR/USD" 1.10 1
     (market.NewManager None market.emptyHeap)).1 = market.Returns None ∧
  (market.GetSpotRate "EUR/USD"
     (market.UpdateSpotRate "EUR/USD" 1.10 1
        (market.NewManager None market.emptyHeap)).2).1
  = (market.SpotRate.mk "EUR/USD" 1.10 1, None).
Proof.
  apply (UpdateSpotRate_then_GetSpotRate
           (market.NewManager None market.emptyHeap) "EUR/USD" 1.10%float 1).
  - reflexivity.
  - discriminate.
Defined.

(** X2. An accepted discount curve is read back as stored: when
    [flatRate < 0] is false and the curve map is not nil,
    [UpdateDiscountCurve] returns no error and [GetDiscountCurve] of the
    currency then returns the currency, the rate, the compounding and the
    time of the update; the compounding string is not checked. *)
Theorem UpdateDiscountCurve_then_GetDiscountCurve
  (w : market.World) (ccy compounding : string) (flatRate : float)
  (now : market.Time) :
  PrimFloat.ltb flatRate 0 = false →
  market.discountCurves (market.m w) ≠ None →
  (market.UpdateDiscountCurve ccy flatRate compounding now w).1
  = market.Returns None ∧
  (market.GetDiscountCurve ccy
     (market.UpdateDiscountCurve ccy flatRate compounding now w).2).1
  = (market.DiscountCurve.mk ccy flatRate compounding now, None).
Proof.
  intros Hguard Hnonnil. unfold market.UpdateDiscountCurve. rewrite Hguard.
  destruct (market.discountCurves (market.m w)) as [a|]; [|done].
  split; [done|]. unfold market.GetDiscountCurve. simpl.
  by rewrite !deref_insert, lookup_insert_eq.
Qed.

(** An instance of X2. *)
Lemma UpdateDiscountCurve_then_GetDiscountCurve_witness :
  (market.UpdateDiscountCurve "USD" 0 "" 2
     (market.NewManager None market.emptyHeap)).1 = market.Returns None ∧
  (market.GetDiscountCurve "USD"
     (market.UpdateDiscountCurve "USD" 0 "" 2
        (market.NewManager None market.emptyHeap)).2).1
  = (market.DiscountCurve.mk "USD" 0 "" 2, None).
Proof.
  apply (UpdateDiscountCurve_then_GetDiscountCurve
           (market.NewManager None market.emptyHeap) "USD" "" 0%float 2).
  - reflexivity.
  - discriminate.
Defined.

(** ** What an update leaves alone *)

Lemma GetSpotRate_reads_stored (key : string) (w w' : market.World) :
  (market.stored w').1.1 !! key = (market.stored w).1.1 !! key →
  (market.GetSpotRate key w').1 = (market.GetSpotRate key w).1.
Proof.
  unfold market.stored, market.GetSpotRate. simpl. intros ->.
  by destruct (_ !! key).
Qed.

Lemma GetDiscountCurve_reads_stored (key : string) (w w' : market.World) :
  (market.stored w').1.2 !! key = (market.stored w).1.2 !! key →
  (market.GetDiscountCurve key w').1 = (market.GetDiscountCurve key w).1.
Proof.
  unfold market.stored, market.GetDiscountCurve. simpl. intros ->.
  by destruct (_ !! key).
Qed.

Lemma GetVolSurface_reads_stored (key : string) (w w' : market.World) :
  (market.stored w').2 !! key = (market.stored w).2 !! key →
  (market.GetVolSurface key w').1 = (market.GetVolSurface key w).1.
Proof.
  unfold market.stored, market.GetVolSurface. simpl. intros ->.
  by destruct (_ !! key).
Qed.

(** What each update does to what is stored. *)
Lemma UpdateSpotRate_stored (w : market.World) key rate now :
  market.stored (market.UpdateSpotRate key rate now w).2
  = match (market.UpdateSpotRate key rate now w).1 with
    | market.Returns None =>
        (<[key := market.SpotRate.mk key rate now]> (market.stored w).1.1,
         (market.stored w).1.2, (market.stored w).2)
    | _ => market.stored w
    end.
Proof.
  unfold market.UpdateSpotRate.
  destruct (PrimFloat.leb rate 0); [done|].
  destruct (market.spotRates (market.m w)) as [a|] eqn:Hm; [|done].
  unfold market.stored. simpl. by rewrite Hm, deref_insert.
Qed.

Lemma UpdateDiscountCurve_stored (w : market.World) key rate comp now :
  market.stored (market.UpdateDiscountCurve key rate comp now w).2
  = match (market.UpdateDiscountCurve key rate comp now w).1 with
    | market.Returns None =>
        ((market.stored w).1.1,
         <[key := market.DiscountCurve.mk key rate comp now]>
           (market.stored w).1.2,
         (market.stored w).2)
    | _ => market.stored w
    end.
Proof.
  unfold market.UpdateDiscountCurve.
  destruct (PrimFloat.ltb rate 0); [done|].
  destruct (market.discountCurves (market.m w)) as [a|] eqn:Hm; [|done].
  unfold market.stored. simpl. by rewrite Hm, deref_insert.
Qed.

Lemma UpdateVolSurface_stored (w : market.World) key vol now :
  market.stored (market.UpdateVolSurface key vol now w).2
  = match (market.UpdateVolSurface key vol now w).1 with
    | market.Returns None =>
        ((market.stored w).1.1, (market.stored w).1.2,
         <[key := market.VolSurface.mk key vol now]> (market.stored w).2)
    | _ => market.stored w
    end.
Proof.
  unfold market.UpdateVolSurface.
  destruct (PrimFloat.ltb vol 0 || PrimFloat.ltb 1 vol); [done|].
  destruct (market.volSurfaces (market.m w)) as [a|] eqn:Hm; [|done].
  unfold market.stored. simpl. by rewrite Hm, deref_insert.
Qed.

(** X3. An update touches one key of one map. Whatever its arguments and
    however it ends, [UpdateSpotRate] of a pair changes no lookup of
    another pair and no lookup of a discount curve or a vol surface; the
    same holds of [UpdateDiscountCurve] and [UpdateVolSurface] for their
    own map. *)
Theorem update_changes_one_key
  (w : market.World) (key other comp : string) (x : float)
  (now : market.Time) :
  other ≠ key →
  ((market.GetSpotRate other (market.UpdateSpotRate key x now w).2).1
   = (market.GetSpotRate other w).1 ∧
   ∀ k,
     (market.GetDiscountCurve k (market.UpdateSpotRate key x now w).2).1
     = (market.GetDiscountCurve k w).1 ∧
     (market.GetVolSurface k (market.UpdateSpotRate key x now w).2).1
     = (market.GetVolSurface k w).1) ∧
  ((market.GetDiscountCurve other
      (market.UpdateDiscountCurve key x comp now w).2).1
   = (market.GetDiscountCurve other w).1 ∧
   ∀ k,
     (market.GetSpotRate k (market.UpdateDiscountCurve key x comp now w).2).1
     = (market.GetSpotRate k w).1 ∧
     (market.GetVolSurface k (market.UpdateDiscountCurve key x comp now w).2).1
     = (market.GetVolSurface k w).1) ∧
  ((market.GetVolSurface other (market.UpdateVolSurface key x now w).2).1
   = (market.GetVolSurface other w).1 ∧
   ∀ k,
     (market.GetSpotRate k (market.UpdateVolSurface key x now w).2).1
     = (market.GetSpotRate k w).1 ∧
     (market.GetDiscountCurve k (market.UpdateVolSurface key x now w).2).1
     = (market.GetDiscountCurve k w).1).
Proof.
  intros Hne.
  repeat split;
    first [ apply GetSpotRate_reads_stored
          | apply GetDiscountCurve_reads_stored
          | apply GetVolSurface_reads_stored ];
    rewrite ?UpdateSpotRate_stored, ?UpdateDiscountCurve_stored,
      ?UpdateVolSurface_stored;
    repeat case_match; simpl; try done;
    by rewrite lookup_insert_ne.
Qed.

(** An instance of X3. *)
Lemma update_changes_one_key_witness :
  (market.GetSpotRate "GBP/USD"
     (market.UpdateSpotRate "EUR/USD" 2 3 market.quoted).2).1
  = (market.GetSpotRate "GBP/USD" market.quoted).1.
Proof.
  refine (proj1 (proj1 (update_changes_one_key market.quoted "EUR/USD"
                          "GBP/USD" "" 2%float 3 _))).
  discriminate.
Defined.

(** X4. The last accepted update of a pair wins: after two updates of the
    same pair, the second one accepted, the Manager stores what it
    stores after the second update alone. *)
Theorem UpdateSpotRate_last_write_wins
  (w : market.World) (key : string) (r1 r2 : float) (t1 t2 : market.Time) :
  PrimFloat.leb r2 0 = false →
  market.stored
    (market.UpdateSpotRate key r2 t2 (market.UpdateSpotRate key r1 t1 w).2).2
  = market.stored (market.UpdateSpotRate key r2 t2 w).2.
Proof.
  intros H2. rewrite !UpdateSpotRate_stored.
  unfold market.UpdateSpotRate. rewrite H2.
  destruct (PrimFloat.leb r1 0); [done|].
  destruct (market.spotRates (market.m w)) as [a|] eqn:Hm; simpl.
  - rewrite Hm. simpl. by rewrite insert_insert_eq.
  - by rewrite Hm.
Qed.

(** An instance of X4. *)
Lemma UpdateSpotRate_last_write_wins_witness :
  market.stored
    (market.UpdateSpotRate "EUR/USD" 2 3
       (market.UpdateSpotRate "EUR/USD" 1.10 1
          (market.NewManager None market.emptyHeap)).2).2
  = market.stored
      (market.UpdateSpotRate "EUR/USD" 2 3
         (market.NewManager None market.emptyHeap)).2.
Proof.
  apply (UpdateSpotRate_last_write_wins
           (market.NewManager None market.emptyHeap) "EUR/USD"
           1.10%float 2%float 1 3).
  reflexivity.
Defined.



(** ** Counting with [Stats] *)

Lemma Stats_reads_stored (w : market.World) :
  (market.Stats w).1
  = <["spot_rates" := Z.of_nat (size (market.stored w).1.1)]>
      (<["discount_curves" := Z.of_nat (size (market.stored w).1.2)]>
         (<["vol_surfaces" := Z.of_nat (size (market.stored w).2)]> ∅)).
Proof. done. Qed.

(** X6. [Stats] counts pairs, not updates: an accepted [UpdateSpotRate]
    raises the spot-rate count by one when the pair was not stored and
    leaves it as it was when the pair was stored; either way the two
    other counts do not move. *)
Theorem Stats_counts_distinct_pairs
  (w : market.World) (key : string) (rate : float) (now : market.Time) :
  (market.UpdateSpotRate key rate now w).1 = market.Returns None →
  (market.Stats (market.UpdateSpotRate key rate now w).2).1 !! "spot_rates"
  = Some (match (market.stored w).1.1 !! key with
          | None => Z.of_nat (size (market.stored w).1.1) + 1
          | Some _ => Z.of_nat (size (market.stored w).1.1)
          end) ∧
  (market.Stats (market.UpdateSpotRate key rate now w).2).1
    !! "discount_curves"
  = (market.Stats w).1 !! "discount_curves" ∧
  (market.Stats (market.UpdateSpotRate key rate now w).2).1 !! "vol_surfaces"
  = (market.Stats w).1 !! "vol_surfaces".
Proof.
  intros Hok. rewrite !Stats_reads_stored, UpdateSpotRate_stored, Hok.
  simpl. repeat split; try done.
  rewrite lookup_insert_eq. f_equal.
  destruct (_ !! key) as [old|] eqn:Hkey.
  - rewrite map_size_insert_Some; [done|]. rewrite Hkey. by eexists.
  - rewrite map_size_insert_None by done. lia.
Qed.

(** An instance of X6. *)
Lemma Stats_counts_distinct_pairs_witness :
  (market.Stats (market.UpdateSpotRate "EUR/USD" 2 3 market.quoted).2).1
    !! "spot_rates"
  = Some (match (market.stored market.quoted).1.1 !! "EUR/USD" with
          | None => Z.of_nat (size (market.stored market.quoted).1.1) + 1
          | Some _ => Z.of_nat (size (market.stored market.quoted).1.1)
          end).
Proof.
  refine (proj1 (Stats_counts_distinct_pairs market.quoted "EUR/USD"
                   2%float 3 _)).
  vm_compute. reflexivity.
Defined.

(** ** Snapshots of a well-formed Manager *)

(** X7. [GetSnapshot] copies: on a Manager whose maps are maps of the heap,
    the snapshot returned holds exactly what the Manager stores, carries
    the time of the call, and taking it changes neither the Manager nor
    what it stores. *)
Theorem GetSnapshot_returns_a_copy (now : market.Time) (w : market.World) :
  market.wellFormed w →
  market.contents (market.GetSnapshot now w).1
                  (market.heap (market.GetSnapshot now w).2)
  = market.stored w ∧
  market.SnapshotTime (market.GetSnapshot now w).1 = now ∧
  market.stored (market.GetSnapshot now w).2 = market.stored w ∧
  market.m (market.GetSnapshot now w).2 = market.m w.
Proof.
  intros Hw. destruct (GetSnapshot_copies now w Hw) as (H1 & H2 & H3 & _).
  done.
Qed.

Lemma wellFormed_quoted : market.wellFormed market.quoted.
Proof.
  unfold market.wellFormed, market.validRef.
  repeat split; apply (bool_decide_unpack _); vm_compute; reflexivity.
Qed.

(** An instance of X7. *)
Lemma GetSnapshot_returns_a_copy_witness :
  market.contents (market.GetSnapshot 2 market.quoted).1
                  (market.heap (market.GetSnapshot 2 market.quoted).2)
  = market.stored market.quoted.
Proof.
  exact (proj1 (GetSnapshot_returns_a_copy 2 market.quoted wellFormed_quoted)).
Defined.

(** X8. A snapshot is a point-in-time copy until it is loaded back. Take a
    snapshot of a well-formed Manager and then make any sequence of
    calls that never passes one of the snapshot's own maps to
    [LoadSnapshot]: the snapshot still holds what the Manager stored
    when it was taken, and loading it then restores exactly that. *)
Theorem snapshot_restores_the_store
  (now : market.Time) (w : market.World) (ops : list market.Op) :
  market.wellFormed w →
  Forall (market.keepsApart (market.GetSnapshot now w).1) ops →
  market.contents (market.GetSnapshot now w).1
    (market.heap (market.run ops (market.GetSnapshot now w).2))
  = market.stored w ∧
  market.stored
    (market.LoadSnapshot (market.GetSnapshot now w).1
       (market.run ops (market.GetSnapshot now w).2))
  = market.stored w.
Proof.
  intros Hw Hops.
  destruct (GetSnapshot_copies now w Hw) as (Hcopy & _ & _ & Hapart).
  pose proof (snapshot_unchanged_unless_reloaded _ ops _ Hapart Hops) as Hsame.
  split.
  - by rewrite Hsame.
  - destruct (LoadSnapshot_stored (market.GetSnapshot now w).1
                (market.run ops (market.GetSnapshot now w).2)) as [-> _].
    by rewrite Hsame.
Qed.

(** An instance of X8. *)
Lemma snapshot_restores_the_store_witness :
  market.stored
    (market.LoadSnapshot (market.GetSnapshot 2 market.quoted).1
       (market.run [market.CallUpdateSpotRate "EUR/USD" 2 3;
                    market.CallUpdateVolSurface "EUR/USD" 0.12 4]
          (market.GetSnapshot 2 market.quoted).2))
  = market.stored market.quoted.
Proof.
  refine (proj2 (snapshot_restores_the_store 2 market.quoted _
                   wellFormed_quoted _)).
  repeat constructor.
Defined.

(** ** NaN and nil maps *)

(** X9. The three guards compare with [<], [<=] and [>], which are false on
    NaN: on a Manager with no nil map, each update called with NaN
    returns no error, and the lookup then returns NaN as the stored
    rate or volatility. *)
Theorem updates_accept_NaN
  (w : market.World) (key comp : string) (x : float) (now : market.Time) :
  PrimFloat.is_nan x = true → market.nonNil w →
  ((market.UpdateSpotRate key x now w).1 = market.Returns None ∧
   (market.GetSpotRate key (market.UpdateSpotRate key x now w).2).1
   = (market.SpotRate.mk key x now, None)) ∧
  ((market.UpdateDiscountCurve key x comp now w).1 = market.Returns None ∧
   (market.GetDiscountCurve key
      (market.UpdateDiscountCurve key x comp now w).2).1
   = (market.DiscountCurve.mk key x comp now, None)) ∧
  ((market.UpdateVolSurface key x now w).1 = market.Returns None ∧
   (market.GetVolSurface key (market.UpdateVolSurface key x now w).2).1
   = (market.VolSurface.mk key x now, None)).
Proof.
  intros Hnan (Hs & Hc & Hv).
  destruct (float_nan_compares_false x 0 Hnan) as (Hle0 & Hlt0 & _ & _).
  destruct (float_nan_compares_false x 1 Hnan) as (_ & _ & _ & Hgt1).
  split; [|split].
  - unfold market.UpdateSpotRate. rewrite Hle0.
    destruct (market.spotRates (market.m w)) as [a|]; [|done].
    split; [done|]. unfold market.GetSpotRate. simpl.
    by rewrite !deref_insert, lookup_insert_eq.
  - unfold market.UpdateDiscountCurve. rewrite Hlt0.
    destruct (market.discountCurves (market.m w)) as [a|]; [|done].
    split; [done|]. unfold market.GetDiscountCurve. simpl.
    by rewrite !deref_insert, lookup_insert_eq.
  - unfold market.UpdateVolSurface. rewrite Hlt0, Hgt1. simpl.
    destruct (market.volSurfaces (market.m w)) as [a|]; [|done].
    split; [done|]. unfold market.GetVolSurface. simpl.
    by rewrite !deref_insert, lookup_insert_eq.
Qed.

Lemma nonNil_NewManager (logger : option market.Logger) (h : market.Heap) :
  market.nonNil (market.NewManager logger h).
Proof. by unfold market.nonNil, market.NewManager. Qed.

(** An instance of X9. *)
Lemma updates_accept_NaN_witness :
  (market.UpdateSpotRate "EUR/USD" nan 1
     (market.NewManager None market.emptyHeap)).1 = market.Returns None ∧
  (market.GetSpotRate "EUR/USD"
     (market.UpdateSpotRate "EUR/USD" nan 1
        (market.NewManager None market.emptyHeap)).2).1
  = (market.SpotRate.mk "EUR/USD" nan 1, None).
Proof.
  refine (proj1 (updates_accept_NaN (market.NewManager None market.emptyHeap)
                   "EUR/USD" "" nan 1 _ _)).
  - reflexivity.
  - apply nonNil_NewManager.
Defined.

(** X10. Loading the zero [MarketSnapshot] leaves the Manager with nil maps:
    from then on every lookup fails, [Stats] counts nothing, and no
    update can succeed: an update returns its validation error or, when
    its argument passes the guard, panics on the assignment to an entry
    of a nil map; either way nothing changes. *)
Theorem zero_snapshot_disables_updates
  (w : market.World) (key comp : string) (x : float) (now : market.Time) :
  let w0 := market.LoadSnapshot market.zeroSnapshot w in
  market.stored w0 = (∅, ∅, ∅) ∧
  (∃ e, (market.GetSpotRate key w0).1 = (market.SpotRate.zero, Some e)) ∧
  (∃ e, (market.GetDiscountCurve key w0).1
        = (market.DiscountCurve.zero, Some e)) ∧
  (∃ e, (market.GetVolSurface key w0).1 = (market.VolSurface.zero, Some e)) ∧
  (market.Stats w0).1
  = <["spot_rates" := 0]>
      (<["discount_curves" := 0]> (<["vol_surfaces" := 0]> ∅)) ∧
  (market.UpdateSpotRate key x now w0
   = (if PrimFloat.leb x 0
      then market.Returns
             (Some (Errorf "invalid rate %f for pair %s: must be positive"
                           [ArgFloat64 x; ArgString key]))
      else market.Panics market.nilMapAssignment, w0)) ∧
  (market.UpdateDiscountCurve key x comp now w0
   = (if PrimFloat.ltb x 0
      then market.Returns
             (Some (Errorf
                "invalid flat rate %f for currency %s: must be non-negative"
                [ArgFloat64 x; ArgString key]))
      else market.Panics market.nilMapAssignment, w0)) ∧
  (market.UpdateVolSurface key x now w0
   = (if PrimFloat.ltb x 0 || PrimFloat.ltb 1 x
      then market.Returns
             (Some (Errorf
                "invalid flat volatility %f for pair %s: must be between 0 and 1"
                [ArgFloat64 x; ArgString key]))
      else market.Panics market.nilMapAssignment, w0)).
Proof.
  intros w0. subst w0.
  unfold market.UpdateSpotRate, market.UpdateDiscountCurve,
    market.UpdateVolSurface, market.GetSpotRate, market.GetDiscountCurve,
    market.GetVolSurface.
  repeat split; simpl; eauto.
  - by destruct (PrimFloat.leb x 0).
  - by destruct (PrimFloat.ltb x 0).
  - by destruct (PrimFloat.ltb x 0 || PrimFloat.ltb 1 x).
Qed.

(** X11. No update panics on a Manager made by [NewManager] as long as no nil
    map is loaded into it: after any sequence of calls whose loaded
    snapshots carry three non-nil maps, each update returns, with an
    error or without. *)
Theorem updates_return_without_nil_maps
  (logger : option market.Logger) (h : market.Heap) (ops : list market.Op)
  (key comp : string) (x : float) (now : market.Time) :
  Forall market.loadsNonNil ops →
  let w := market.run ops (market.NewManager logger h) in
  (∃ err, (market.UpdateSpotRate key x now w).1 = market.Returns err) ∧
  (∃ err, (market.UpdateDiscountCurve key x comp now w).1
          = market.Returns err) ∧
  (∃ err, (market.UpdateVolSurface key x now w).1 = market.Returns err).
Proof.
  intros Hops w.
  assert (Hnn : market.nonNil w).
  { subst w. apply (run_invariant market.nonNil market.loadsNonNil);
      [|done|apply nonNil_NewManager].
    intros o w' Ho (Hs & Hc & Hv).
    destruct o as [k r t|k r c t|k r t|s|t|tb|tb|tb]; simpl in *; try done.
    - unfold market.UpdateSpotRate. destruct (PrimFloat.leb r 0); [done|].
      by destruct (market.spotRates (market.m w')) eqn:Hm.
    - unfold market.UpdateDiscountCurve. destruct (PrimFloat.ltb r 0); [done|].
      by destruct (market.discountCurves (market.m w')) eqn:Hm.
    - unfold market.UpdateVolSurface.
      destruct (PrimFloat.ltb r 0 || PrimFloat.ltb 1 r); [done|].
      by destruct (market.volSurfaces (market.m w')) eqn:Hm. }
  destruct Hnn as (Hs & Hc & Hv).
  unfold market.UpdateSpotRate, market.UpdateDiscountCurve,
    market.UpdateVolSurface.
  repeat split.
  - destruct (PrimFloat.leb x 0); [by eexists|].
    destruct (market.spotRates (market.m w)); [by eexists|done].
  - destruct (PrimFloat.ltb x 0); [by eexists|].
    destruct (market.discountCurves (market.m w)); [by eexists|done].
  - destruct (PrimFloat.ltb x 0 || PrimFloat.ltb 1 x); [by eexists|].
    destruct (market.volSurfaces (market.m w)); [by eexists|done].
Qed.

(** An instance of X11. *)
Lemma updates_return_without_nil_maps_witness :
  ∃ err,
    (market.UpdateSpotRate "GBP/USD" 1.27 9
       (market.run market.exampleSetup
          (market.NewManager None market.emptyHeap))).1
    = market.Returns err.
Proof.
  refine (proj1 (updates_return_without_nil_maps None market.emptyHeap
                   market.exampleSetup "GBP/USD" "" 1.27%float 9 _)).
  repeat constructor.
Defined.

(** ** What the updates guarantee of the stored entries *)

Lemma keyed_exec (o : market.Op) (w : market.World) :
  market.noLoad o → market.wellFormed w ∧ market.keyed w →
  market.wellFormed (market.exec o w) ∧ market.keyed (market.exec o w).
Proof.
  intros Ho [Hw Hk]. split; [by apply wellFormed_exec|].
  pose proof (stored_alloc_step o w Hw) as Halloc.
  destruct Hk as (Hs & Hc & Hv). unfold market.keyed.
  destruct o as [k r t|k r c t|k r t|s|t|tb|tb|tb];
    cbn [market.exec market.noLoad] in *; rewrite ?Halloc; try done.
  - rewrite UpdateSpotRate_stored. repeat case_match; try done.
    cbn [fst snd]. repeat split; try done. intros k' v.
    destruct (decide (k = k')) as [->|Hne].
    + rewrite lookup_insert_eq. by intros [= <-].
    + rewrite lookup_insert_ne by done. apply Hs.
  - rewrite UpdateDiscountCurve_stored. repeat case_match; try done.
    cbn [fst snd]. repeat split; try done. intros k' v.
    destruct (decide (k = k')) as [->|Hne].
    + rewrite lookup_insert_eq. by intros [= <-].
    + rewrite lookup_insert_ne by done. apply Hc.
  - rewrite UpdateVolSurface_stored. repeat case_match; try done.
    cbn [fst snd]. repeat split; try done. intros k' v.
    destruct (decide (k = k')) as [->|Hne].
    + rewrite lookup_insert_eq. by intros [= <-].
    + rewrite lookup_insert_ne by done. apply Hv.
Qed.

Lemma stored_NewManager (logger : option market.Logger) (h : market.Heap) :
  market.stored (market.NewManager logger h) = (∅, ∅, ∅).
Proof.
  unfold market.stored, market.NewManager. simpl. by rewrite !deref_insert.
Qed.

(** X12. Entries are stored under their own name. From [NewManager], after
    any sequence of calls without [LoadSnapshot], every entry a lookup
    returns names the key it was asked for: the [Pair] of a spot rate or
    vol surface is the pair looked up, the [Currency] of a discount curve
    the currency looked up. *)
Theorem lookups_return_the_key_asked_for
  (logger : option market.Logger) (h : market.Heap) (ops : list market.Op)
  (key : string) :
  Forall market.noLoad ops →
  let w := market.run ops (market.NewManager logger h) in
  (∀ v, (market.GetSpotRate key w).1 = (v, None) →
        market.SpotRate.Pair v = key) ∧
  (∀ v, (market.GetDiscountCurve key w).1 = (v, None) →
        market.DiscountCurve.Currency v = key) ∧
  (∀ v, (market.GetVolSurface key w).1 = (v, None) →
        market.VolSurface.Pair v = key).
Proof.
  intros Hops w.
  assert (Hinv : market.wellFormed w ∧ market.keyed w).
  { subst w.
    apply (run_invariant (fun w => market.wellFormed w ∧ market.keyed w)
             market.noLoad); [apply keyed_exec|done|].
    split; [apply wellFormed_NewManager|].
    unfold market.keyed. rewrite stored_NewManager. simpl.
    repeat split; intros k v; by rewrite lookup_empty. }
  destruct Hinv as (_ & Hs & Hc & Hv).
  unfold market.GetSpotRate, market.GetDiscountCurve, market.GetVolSurface.
  unfold market.stored in Hs, Hc, Hv. simpl in Hs, Hc, Hv.
  repeat split; intros v.
  - destruct (_ !! key) as [v'|] eqn:Hkey; simpl; [|done].
    intros [= <-]. by apply Hs.
  - destruct (_ !! key) as [v'|] eqn:Hkey; simpl; [|done].
    intros [= <-]. by apply Hc.
  - destruct (_ !! key) as [v'|] eqn:Hkey; simpl; [|done].
    intros [= <-]. by apply Hv.
Qed.

(** An instance of X12. *)
Lemma lookups_return_the_key_asked_for_witness :
  market.SpotRate.Pair
    (market.GetSpotRate "EUR/USD"
       (market.run market.exampleSetup
          (market.NewManager None market.emptyHeap))).1.1 = "EUR/USD".
Proof.
  refine (proj1 (lookups_return_the_key_asked_for None market.emptyHeap
                   market.exampleSetup "EUR/USD" _) _ _).
  - repeat constructor.
  - vm_compute. reflexivity.
Defined.

Lemma bounded_exec (o : market.Op) (w : market.World) :
  market.noLoad o ∧ market.numeric o →
  market.wellFormed w ∧ market.bounded w →
  market.wellFormed (market.exec o w) ∧ market.bounded (market.exec o w).
Proof.
  intros [Ho Hnum] [Hw Hb]. split; [by apply wellFormed_exec|].
  pose proof (stored_alloc_step o w Hw) as Halloc.
  destruct Hb as (Hc & Hv). unfold market.bounded.
  destruct o as [k r t|k r c t|k r t|s|t|tb|tb|tb];
    cbn [market.exec market.noLoad market.numeric] in *;
    rewrite ?Halloc; try done.
  - rewrite UpdateSpotRate_stored. by repeat case_match.
  - rewrite UpdateDiscountCurve_stored.
    unfold market.UpdateDiscountCurve.
    destruct (PrimFloat.ltb r 0) eqn:Hguard; [done|].
    destruct (market.discountCurves (market.m w)); [|done].
    cbn [fst snd]. split; [|done]. intros k' v.
    destruct (decide (k = k')) as [->|Hne].
    + rewrite lookup_insert_eq. intros [= <-]. simpl.
      by apply float_not_ltb_leb.
    + rewrite lookup_insert_ne by done. apply Hc.
  - rewrite UpdateVolSurface_stored.
    unfold market.UpdateVolSurface.
    destruct (PrimFloat.ltb r 0) eqn:Hlow; [done|].
    destruct (PrimFloat.ltb 1 r) eqn:Hhigh; [done|]. cbn [orb].
    destruct (market.volSurfaces (market.m w)); [|done].
    cbn [fst snd]. split; [done|]. intros k' v.
    destruct (decide (k = k')) as [->|Hne].
    + rewrite lookup_insert_eq. intros [= <-]. simpl.
      split; by apply float_not_ltb_leb.
    + rewrite lookup_insert_ne by done. apply Hv.
Qed.

(** X13. The guards keep the stored numbers in range. From [NewManager],
    after any sequence of calls without [LoadSnapshot] in which no
    update is passed NaN, every discount curve a lookup returns has a
    flat rate of at least 0 and every vol surface a flat volatility
    between 0 and 1. *)
Theorem stored_rates_and_vols_in_range
  (logger : option market.Logger) (h : market.Heap) (ops : list market.Op)
  (key : string) :
  Forall (fun o => market.noLoad o ∧ market.numeric o) ops →
  let w := market.run ops (market.NewManager logger h) in
  (∀ v, (market.GetDiscountCurve key w).1 = (v, None) →
        PrimFloat.leb 0 (market.DiscountCurve.FlatRate v) = true) ∧
  (∀ v, (market.GetVolSurface key w).1 = (v, None) →
        PrimFloat.leb 0 (market.VolSurface.FlatVol v) = true ∧
        PrimFloat.leb (market.VolSurface.FlatVol v) 1 = true).
Proof.
  intros Hops w.
  assert (Hinv : market.wellFormed w ∧ market.bounded w).
  { subst w.
    apply (run_invariant (fun w => market.wellFormed w ∧ market.bounded w)
             (fun o => market.noLoad o ∧ market.numeric o));
      [apply bounded_exec|done|].
    split; [apply wellFormed_NewManager|].
    unfold market.bounded. rewrite stored_NewManager. simpl.
    split; intros k v; by rewrite lookup_empty. }
  destruct Hinv as (_ & Hc & Hv).
  unfold market.GetDiscountCurve, market.GetVolSurface.
  unfold market.stored in Hc, Hv. simpl in Hc, Hv.
  split; intros v.
  - destruct (_ !! key) as [v'|] eqn:Hkey; simpl; [|done].
    intros [= <-]. by apply (Hc key).
  - destruct (_ !! key) as [v'|] eqn:Hkey; simpl; [|done].
    intros [= <-]. by apply (Hv key).
Qed.

(** An instance of X13. *)
Lemma stored_rates_and_vols_in_range_witness :
  PrimFloat.leb 0
    (market.VolSurface.FlatVol
       (market.GetVolSurface "EUR/USD"
          (market.run market.exampleSetup
             (market.NewManager None market.emptyHeap))).1.1) = true ∧
  PrimFloat.leb
    (market.VolSurface.FlatVol
       (market.GetVolSurface "EUR/USD"
          (market.run market.exampleSetup
             (market.NewManager None market.emptyHeap))).1.1) 1 = true.
Proof.
  refine (proj2 (stored_rates_and_vols_in_range None market.emptyHeap
                   market.exampleSetup "EUR/USD" _)
            (market.GetVolSurface "EUR/USD"
               (market.run market.exampleSetup
                  (market.NewManager None market.emptyHeap))).1.1 _).
  - repeat constructor; reflexivity.
  - vm_compute. reflexivity.
Defined.

(** * The configuration *)

Lemma index_validLevels (s : string) :
  config.index config.validLevels s = true
  ↔ s ∈ ["debug"; "info"; "warn"; "error"].
Proof.
  unfold config.index, config.validLevels. split.
  - destruct (_ !! s) as [[]|] eqn:Hs; simpl; try done. intros _.
    apply elem_of_list_to_map_2 in Hs.
    rewrite !elem_of_cons, elem_of_nil in Hs. rewrite !elem_of_cons, elem_of_nil.
    destruct Hs as [[= ->]|[[= ->]|[[= ->]|[[= ->]|[]]]]]; auto.
  - rewrite !elem_of_cons, elem_of_nil.
    intros [->|[->|[->|[->|[]]]]]; vm_compute; reflexivity.
Qed.

Lemma index_validFormats (s : string) :
  config.index config.validFormats s = true ↔ s ∈ ["json"; "console"].
Proof.
  unfold config.index, config.validFormats. split.
  - destruct (_ !! s) as [[]|] eqn:Hs; simpl; try done. intros _.
    apply elem_of_list_to_map_2 in Hs.
    rewrite !elem_of_cons, elem_of_nil in Hs. rewrite !elem_of_cons, elem_of_nil.
    destruct Hs as [[= ->]|[[= ->]|[]]]; auto.
  - rewrite !elem_of_cons, elem_of_nil.
    intros [->|[->|[]]]; vm_compute; reflexivity.
Qed.

(** X14. [Validate] returns no error exactly for the configurations with a
    non-empty server address, positive connect and request timeouts, a
    certificate file whenever TLS is enabled, a log level among debug,
    info, warn and error, a log format among json and console, a default
    volatility that is neither below 0 nor above 1, and a non-negative
    update interval. *)
Theorem Validate_accepts_exactly (c : config.Config) :
  config.Validate c = None ↔ config.acceptable c.
Proof.
  unfold config.Validate, config.acceptable.
  destruct (String.eqb_spec (config.ServerConfig.Address (config.Server c)) "")
    as [Haddr|Haddr]; [split; [done|tauto]|].
  destruct (Z.leb_spec (config.ServerConfig.ConnectTimeout (config.Server c)) 0)
    as [Hct|Hct]; [split; [done|lia]|].
  destruct (Z.leb_spec (config.ServerConfig.RequestTimeout (config.Server c)) 0)
    as [Hrt|Hrt]; [split; [done|lia]|].
  destruct (config.ServerConfig.EnableTLS (config.Server c)) eqn:Htls;
    destruct (String.eqb_spec (config.ServerConfig.CertFile (config.Server c)) "")
      as [Hcert|Hcert]; simpl; try (split; [done|tauto]);
    (destruct (config.index config.validLevels _) eqn:Hlevel; simpl;
     [apply index_validLevels in Hlevel
     |split; [done|]; intros (_ & _ & _ & _ & Hl & _);
      apply index_validLevels in Hl; congruence]);
    (destruct (config.index config.validFormats _) eqn:Hformat; simpl;
     [apply index_validFormats in Hformat
     |split; [done|]; intros (_ & _ & _ & _ & _ & Hf & _);
      apply index_validFormats in Hf; congruence]);
    (destruct (PrimFloat.ltb _ 0) eqn:Hlow; simpl;
     [split; [done|]; intros (_ & _ & _ & _ & _ & _ & Hl & _); congruence|]);
    (destruct (PrimFloat.ltb 1 _) eqn:Hhigh; simpl;
     [split; [done|]; intros (_ & _ & _ & _ & _ & _ & _ & Hh & _); congruence|]);
    (destruct (Z.ltb_spec (config.MarketConfig.UpdateIntervalMs (config.Market c)) 0)
       as [Hint|Hint]; [split; [done|lia]|]);
    (split; [intros _|done]); repeat split; try done; try lia.
Qed.

Lemma Validate_None_volatility (c : config.Config) :
  config.Validate c = None →
  PrimFloat.ltb (config.MarketConfig.DefaultVolatility (config.Market c)) 0
  = false ∧
  PrimFloat.ltb 1 (config.MarketConfig.DefaultVolatility (config.Market c))
  = false.
Proof.
  unfold config.Validate.
  destruct (PrimFloat.ltb _ 0), (PrimFloat.ltb 1 _); simpl;
    repeat case_match; done.
Qed.

(** X15. The defaults a validated configuration carries into the market
    store. When [Validate] returns no error, the default volatility is
    one [UpdateVolSurface] accepts on any Manager whose vol map is not
    nil, since both apply the same bounds; the default rate, the default
    currency and the log output path are not looked at by [Validate], so
    the configuration stays valid whatever they are changed to. *)
Theorem Validate_checks_the_volatility_only
  (c : config.Config) (w : market.World) (key : string) (now : market.Time) :
  config.Validate c = None →
  market.volSurfaces (market.m w) ≠ None →
  (market.UpdateVolSurface key
     (config.MarketConfig.DefaultVolatility (config.Market c)) now w).1
  = market.Returns None ∧
  ∀ (ccy out : string) (rate : float),
    config.Validate
      (config.mkConfig (config.Server c)
         (config.LoggingConfig.mk
            (config.LoggingConfig.Level (config.Logging c))
            (config.LoggingConfig.Format (config.Logging c)) out)
         (config.MarketConfig.mk ccy
            (config.MarketConfig.DefaultVolatility (config.Market c)) rate
            (config.MarketConfig.UpdateIntervalMs (config.Market c))))
    = None.
Proof.
  intros Hvalid Hnonnil. split.
  - apply Validate_None_volatility in Hvalid as [Hlow Hhigh].
    unfold market.UpdateVolSurface. rewrite Hlow, Hhigh. simpl.
    by destruct (market.volSurfaces (market.m w)).
  - intros ccy out rate. exact Hvalid.
Qed.

Lemma Validate_getDefaultConfig : config.Validate config.getDefaultConfig = None.
Proof. vm_compute. reflexivity. Qed.

(** An instance of X15. *)
Lemma Validate_checks_the_volatility_only_witness :
  (market.UpdateVolSurface "EUR/USD"
     (config.MarketConfig.DefaultVolatility
        (config.Market config.getDefaultConfig)) 1
     (market.NewManager None market.emptyHeap)).1
  = market.Returns None.
Proof.
  refine (proj1 (Validate_checks_the_volatility_only config.getDefaultConfig
                   (market.NewManager None market.emptyHeap) "EUR/USD" 1
                   Validate_getDefaultConfig _)).
  discriminate.
Defined.

(** X16. [GetConfig] never hands out a nil configuration: after a call the
    package variable holds the configuration returned, a second call
    returns the same one, a configuration already set is returned as it
    is, and the one installed when none was set is the default
    configuration, which passes [Validate]. *)
Theorem GetConfig_installs_valid_defaults (cfg : option config.Config) :
  (config.GetConfig cfg).2 = Some (config.GetConfig cfg).1 ∧
  config.GetConfig (config.GetConfig cfg).2 = config.GetConfig cfg ∧
  (∀ c, cfg = Some c → (config.GetConfig cfg).1 = c) ∧
  (config.GetConfig None).1 = config.getDefaultConfig ∧
  config.Validate (config.GetConfig None).1 = None.
Proof.
  split; [by destruct cfg|]. split; [by destruct cfg|].
  split; [by intros c ->|]. split; [done|].
  exact Validate_getDefaultConfig.
Qed.

(** * The pricing client *)

(** X17. The three requests are placeholders that never succeed: whatever
    the state of the client, [PriceRequest], [UpdateMarket] and
    [HealthCheck] return an error. It is "client not connected", with
    the client left exactly as it was, when no connection is held, and
    "not implemented" otherwise; the connection and the address are
    never changed. *)
Theorem requests_never_succeed (c : client.PricerClient) :
  let expected :=
    if client.IsConnected c then client.notImplemented
    else client.notConnected in
  ((client.PriceRequest c).1 = Some expected ∧
   (client.UpdateMarket c).1 = Some expected ∧
   (client.HealthCheck c).1 = Some expected) ∧
  (client.IsConnected c = false →
   (client.PriceRequest c).2 = c ∧ (client.UpdateMarket c).2 = c ∧
   (client.HealthCheck c).2 = c) ∧
  (client.conn (client.PriceRequest c).2 = client.conn c ∧
   client.conn (client.UpdateMarket c).2 = client.conn c ∧
   client.conn (client.HealthCheck c).2 = client.conn c).
Proof.
  unfold client.PriceRequest, client.UpdateMarket, client.HealthCheck,
    client.placeholder.
  destruct (client.IsConnected c); simpl; repeat split; done.
Qed.

Lemma IsConnected_perform (k : client.Call) (c : client.PricerClient) :
  client.IsConnected (client.perform k c).2
  = client.IsConnected c || client.dials k ∧
  client.addr (client.perform k c).2 = client.addr c.
Proof.
  destruct k as [[cn|err]|closed| | |]; simpl;
    unfold client.Close, client.PriceRequest, client.UpdateMarket,
      client.HealthCheck, client.placeholder, client.IsConnected;
    destruct (client.conn c) eqn:Hconn; simpl; rewrite ?Hconn; done.
Qed.

(** X18. Only a successful dial connects, and nothing disconnects. After any
    sequence of calls on a client, [IsConnected] holds exactly when it
    held before or some [Connect] of the sequence dialled successfully:
    a failed [Connect] keeps the connection already held, and [Close]
    does not clear it. The address never changes. *)
Theorem IsConnected_after_calls
  (ks : list client.Call) (c : client.PricerClient) :
  client.IsConnected (client.performAll ks c)
  = client.IsConnected c || existsb client.dials ks ∧
  client.addr (client.performAll ks c) = client.addr c.
Proof.
  revert c. induction ks as [|k ks IH]; intros c; simpl.
  - by rewrite orb_false_r.
  - destruct (IH (client.perform k c).2) as [-> ->].
    destruct (IsConnected_perform k c) as [-> ->].
    by rewrite orb_assoc.
Qed.

(** X19. [Close] keeps the connection field. On a client without connection
    it returns no error and changes nothing; on a connected client it
    returns what closing the connection returns; in both cases the
    client is connected afterwards exactly when it was before, so a
    request after [Close] is answered as before it. *)
Theorem Close_keeps_the_connection
  (closed : option client.goError) (c : client.PricerClient) :
  client.conn (client.Close closed c).2 = client.conn c ∧
  (client.Close closed c).1
  = (if client.IsConnected c then closed else None) ∧
  (client.IsConnected c = false → (client.Close closed c).2 = c) ∧
  (client.PriceRequest (client.Close closed c).2).1
  = (client.PriceRequest c).1.
Proof.
  unfold client.Close, client.PriceRequest, client.placeholder,
    client.IsConnected.
  destruct (client.conn c) eqn:Hconn; simpl; rewrite ?Hconn;
    repeat split; done.
Qed.

(** X20. [NewPricerClient] returns a client or an error, never both and
    never neither. It fails only when no logger is given and the
    development logger cannot be built, and then wraps that cause. A
    client it returns holds the address given and no connection, so its
    requests answer "client not connected" and its [Close] returns
    nothing. *)
Theorem NewPricerClient_is_disconnected
  (addr : string) (logger : option market.Logger)
  (dev : market.Logger + client.goError) :
  match client.NewPricerClient addr logger dev with
  | (Some c, None) =>
      client.addr c = addr ∧ client.IsConnected c = false ∧
      (client.PriceRequest c) = (Some client.notConnected, c) ∧
      (∀ closed, client.Close closed c = (None, c)) ∧
      (logger = None → ∃ l, dev = inl l ∧ client.logger c = l) ∧
      (∀ l, logger = Some l → client.logger c = l)
  | (None, Some e) =>
      logger = None ∧
      ∃ cause, dev = inr cause ∧
               e = client.Wrapped "failed to create logger: %w" [] cause
  | _ => False
  end.
Proof.
  unfold client.NewPricerClient.
  destruct logger as [l|]; [|destruct dev as [l|cause]]; simpl.
  - repeat split; try done. by intros l' [= ->].
  - repeat split; try done. intros _. by exists l.
  - split; [done|]. by exists cause.
Qed.

(** * Currencies outside the declared constants *)

(** X21. [Currency] is an [int]: a value that is none of the seven constants
    has the empty string for name, and parsing that name back fails, in
    whatever order the loop visits the entries; the currency returned
    beside the error is 0, the value of [USD]. *)
Theorem undeclared_currency_does_not_round_trip
  (order : list (models.Currency * string)) (c : models.Currency) :
  order ≡ₚ map_to_list models.currencyNames →
  c ∉ models.currencies →
  models.Currency_String c = "" ∧
  models.ParseCurrency_range order (models.Currency_String c)
  = (models.USD, Some (models.unknownCurrency "")).
Proof.
  intros Hperm Hc.
  assert (Hname : models.Currency_String c = "").
  { unfold models.Currency_String, models.currencyNames.
    by rewrite (not_elem_of_list_to_map_1 models.declaredEntries c). }
  split; [done|]. rewrite Hname.
  apply ParseCurrency_range_miss.
  rewrite Hperm, currencyNames_entries.
  apply (bool_decide_unpack _). vm_compute. reflexivity.
Qed.

(** An instance of X21. *)
Lemma undeclared_currency_does_not_round_trip_witness :
  models.Currency_String 7 = "" ∧
  models.ParseCurrency_range (map_to_list models.currencyNames)
    (models.Currency_String 7)
  = (models.USD, Some (models.unknownCurrency "")).
Proof.
  apply (undeclared_currency_does_not_round_trip
           (map_to_list models.currencyNames) 7).
  - reflexivity.
  - apply (bool_decide_unpack _). vm_compute. reflexivity.
Defined.
